(** * The jenkobs reactor (reactor/reactor.go)

    A shallow embedding of the reactor: loading of the declarative action
    document ([getAction], [LoadActions]), the AMQP session set-up
    ([connectAMQP]), and the receive / fan-out machinery ([consume],
    [onDelivery], [Run]).

    Sequential code is written in a small state-and-outcome monad over
    the reactor and an ordered trace of observable effects (log records,
    file and broker calls).  The goroutines started by [consume] are given
    by an executable step function over a pool of goroutines. *)

From stdpp Require Import base option list strings gmap pretty.
From Stdlib Require Import ZArith Lia.

#[local] Set Warnings "-register-all".

Local Open Scope Z_scope.
Local Open Scope string_scope.

(** ** Dynamic values

    [yaml.Unmarshal] fills [interface{}] holes with dynamically typed
    values.  A Go map is ranged over in an unspecified order: a map is
    kept as the list of its pairs in the order in which [range] visits
    them, so a statement over all lists covers every order. *)

Inductive iface : Type :=
  | INil
  | IBool (b : bool)
  | IInt (n : Z)
  | IString (s : string)
  | ISlice (l : list iface)
  | IMap (m : list (iface * iface)).

(** [map[string]interface{}]: one top-level entry of the document. *)
Abbreviation ActionSet := (list (string * iface)).

Definition error := string.

(** ** Outcomes of a call *)

Inductive Outcome (A : Type) : Type :=
  | Ret (a : A)             (* the call returns *)
  | Panic (msg : string)    (* run-time panic, propagates to the caller *)
  | Exit (code : Z)         (* os.Exit *)
  | Parked.                 (* the goroutine waits on a channel *)
Arguments Ret {A} a.
Arguments Panic {A} msg.
Arguments Exit {A} code.
Arguments Parked {A}.

Definition obind {A B} (f : A -> Outcome B) (o : Outcome A) : Outcome B :=
  match o with
  | Ret a => f a
  | Panic msg => Panic msg
  | Exit c => Exit c
  | Parked => Parked
  end.

#[global] Instance Outcome_ret : MRet Outcome := fun A a => Ret a.
#[global] Instance Outcome_bind : MBind Outcome := fun A B f o => obind f o.

(** ** Type assertions and map indexing *)

(** [v.(string)] *)
Definition assertString (v : iface) : Outcome string :=
  match v with
  | IString s => Ret s
  | _ => Panic "interface conversion: interface {} is not string"
  end.

(** [v.(map[interface{}]interface{})] *)
Definition assertMap (v : iface) : Outcome (list (iface * iface)) :=
  match v with
  | IMap m => Ret m
  | _ => Panic "interface conversion: interface {} is not map[interface {}]interface {}"
  end.

Definition isKey (k : string) (v : iface) : bool :=
  match v with
  | IString s => bool_decide (s = k)
  | _ => false
  end.

(** [m[k]] for a string key [k]: the nil interface when the key is absent. *)
Fixpoint index (m : list (iface * iface)) (k : string) : iface :=
  match m with
  | [] => INil
  | (k', v) :: rest => if isKey k k' then v else index rest k
  end.

(** ** ActionInfo *)

Record ActionInfo : Type := {
  Project : string;
  Package : string;
  Status : string;
  Architecture : string;
  Params : gmap string string;
  Type_ : string;
}.

(** Modelled from the spec: the constants [ACTION_TYPE_CI] and
    [ACTION_TYPE_SHELL] are declared outside reactor.go; the closed
    enumeration of the data model gives their values. *)
Definition ACTION_TYPE_CI : string := "ci-call".
Definition ACTION_TYPE_SHELL : string := "shell".

(** Modelled from the spec: the two variants of the action contract
    ([NewHTTPAction], [NewShellAction], [LoadAction], [GetAction]) live
    outside reactor.go.  An instance is of one kind and [LoadAction] binds
    it to its ActionInfo, which [GetAction] returns. *)
Inductive ActionKind : Type := HTTPKind | ShellKind.

Definition zeroActionInfo : ActionInfo :=
  {| Project := ""; Package := ""; Status := ""; Architecture := "";
     Params := ∅; Type_ := "" |}.

Record ReactorAction : Type := {
  kind : ActionKind;
  GetAction : ActionInfo;
}.

Definition NewHTTPAction : ReactorAction :=
  {| kind := HTTPKind; GetAction := zeroActionInfo |}.
Definition NewShellAction : ReactorAction :=
  {| kind := ShellKind; GetAction := zeroActionInfo |}.
Definition LoadAction (action : ActionInfo) (a : ReactorAction) : ReactorAction :=
  {| kind := kind a; GetAction := action |}.

(** ** Observable effects *)

Inductive Level : Type := Debug | Info | Warn | Error.

Inductive Arg : Type :=
  | AStr (s : string)
  | AInt (n : Z).

Inductive Event : Type :=
  | Log (lvl : Level) (format : string) (args : list Arg)
  | FileRead (path : string)
  | YamlUnmarshal (content : string)
  | NetDial (connstr : string)
  | NetChannel
  | NetExchangeDeclarePassive (name kind_ : string)
      (durable autoDelete internal noWait : bool)
  | NetQueueDeclare (name : string) (durable autoDelete exclusive noWait : bool)
  | NetQueueBind (name key exchange : string) (noWait : bool)
  | NetConsume (queue consumer : string) (autoAck exclusive noLocal noWait : bool)
  | NetClose.

Definition isNetwork (e : Event) : bool :=
  match e with
  | Log _ _ _ | FileRead _ | YamlUnmarshal _ => false
  | _ => true
  end.

(** ** The reactor *)

Definition Connection := nat.
Definition Channel := nat.
Record Queue : Type := { Name : string }.

Record Reactor : Type := {
  conn : option Connection;
  channel : option Channel;
  queue : Queue;
  actions : list ReactorAction;
  user : string;
  password : string;
  fqdn : string;
  port : Z;
}.

Definition NewReactor : Reactor :=
  {| conn := None; channel := None; queue := {| Name := "" |};
     actions := []; user := ""; password := ""; fqdn := ""; port := 0 |}.

Definition SetAMQPDial (user' password' fqdn' : string) (port' : Z)
    (rtr : Reactor) : Reactor :=
  {| conn := conn rtr; channel := channel rtr; queue := queue rtr;
     actions := actions rtr;
     user := user'; password := password'; fqdn := fqdn'; port := port' |}.

(** ** The state monad of the sequential code *)

Record St : Type := {
  rtr : Reactor;
  trace : list Event;
}.

Definition M (A : Type) : Type := St -> Outcome A * St.

Definition mret_M {A} (a : A) : M A := fun st => (Ret a, st).

Definition mbind_M {A B} (f : A -> M B) (m : M A) : M B :=
  fun st =>
    match m st with
    | (Ret a, st') => f a st'
    | (Panic msg, st') => (Panic msg, st')
    | (Exit c, st') => (Exit c, st')
    | (Parked, st') => (Parked, st')
    end.

#[global] Instance M_ret : MRet M := fun A a => mret_M a.
#[global] Instance M_bind : MBind M := fun A B f m => mbind_M f m.

(** A pure computation that may panic, run inside [M]. *)
Definition lift {A} (o : Outcome A) : M A := fun st => (o, st).

Definition emit (e : Event) : M unit :=
  fun st => (Ret tt, {| rtr := rtr st; trace := trace st ++ [e] |}).

Definition getRtr : M Reactor := fun st => (Ret (rtr st), st).

Definition setRtr (r : Reactor) : M unit :=
  fun st => (Ret tt, {| rtr := r; trace := trace st |}).

Definition os_Exit {A} (code : Z) : M A := fun st => (Exit code, st).

Definition park {A} : M A := fun st => (Parked, st).

(** [rtr.GetLogger().<Level>f(format, args...)] *)
Definition logf (lvl : Level) (format : string) (args : list Arg) : M unit :=
  emit (Log lvl format args).

(** ** getAction *)

(** The loop over the nested action definition: the key "type" sets
    [actionType], every other key becomes a parameter. *)
Fixpoint scanAction (am : list (iface * iface)) (actionType : string)
    (params : gmap string string) : Outcome (string * gmap string string) :=
  match am with
  | [] => Ret (actionType, params)
  | (pkey, pval) :: rest =>
      spkey ← assertString pkey;
      if decide (spkey = "type") then
        v ← assertString pval;
        scanAction rest v params
      else
        v ← assertString pval;
        scanAction rest actionType (<[spkey := v]> params)
  end.

Definition getAction (actionSet : ActionSet) : M (option ActionInfo) :=
  match actionSet with
  | [] => mret None
  | (key, data) :: _ =>
      actionData ← lift (assertMap data);
      '(actionType, params) ← lift (am ← assertMap (index actionData "action");
                                    scanAction am "" ∅);
      package ← lift (assertString (index actionData "package"));
      status ← lift (assertString (index actionData "status"));
      arch ← lift (assertString (index actionData "arch"));
      let action := {| Project := key; Package := package; Status := status;
                       Architecture := arch; Params := params;
                       Type_ := actionType |} in
      if decide (actionType = "") then
        logf Warn "Action on project '%s' with package '%s' does not have defined action type, skipping"
             [AStr (Project action); AStr (Package action)];;
        mret None
      else
        mret (Some action)
  end.

(** ** The environment

    The file system, the YAML decoder and the AMQP client library are
    collaborators outside the repository: their answers are taken from an
    environment.  A Go call returning [(value, error)] is a pair. *)

Record Env : Type := {
  ioutil_ReadFile : string -> string * option error;
  yaml_Unmarshal : string -> list ActionSet * option error;
  amqp_Dial : string -> option Connection * option error;
  conn_Channel : Connection -> option Channel * option error;
  ch_ExchangeDeclarePassive :
    Channel -> string -> string -> bool -> bool -> bool -> bool -> option error;
  ch_QueueDeclare :
    Channel -> string -> bool -> bool -> bool -> bool -> Queue * option error;
  ch_QueueBind : Channel -> string -> string -> string -> bool -> option error;
  ch_Consume :
    Channel -> string -> string -> bool -> bool -> bool -> bool -> option error;
}.

Definition nilDeref {A} : M A :=
  lift (Panic "invalid memory address or nil pointer dereference").

Section Sequential.

Context (env : Env).

(** ** LoadActions *)

(** The body of the loop over the decoded entries; [loaded] counts the
    actions appended to the reactor. *)
Definition loadOne (actionSet : ActionSet) (loaded : Z) : M Z :=
  action ← getAction actionSet;
  match action with
  | Some action =>
      if decide (Type_ action = ACTION_TYPE_CI) then
        let httpAction := LoadAction action NewHTTPAction in
        r ← getRtr;
        setRtr {| conn := conn r; channel := channel r; queue := queue r;
                  actions := actions r ++ [httpAction];
                  user := user r; password := password r; fqdn := fqdn r;
                  port := port r |};;
        logf Debug "Loaded criteria HTTP matcher for project '%s'"
             [AStr (Project action)];;
        mret (loaded + 1)
      else if decide (Type_ action = ACTION_TYPE_SHELL) then
        let shellAction := LoadAction action NewShellAction in
        r ← getRtr;
        setRtr {| conn := conn r; channel := channel r; queue := queue r;
                  actions := actions r ++ [shellAction];
                  user := user r; password := password r; fqdn := fqdn r;
                  port := port r |};;
        logf Debug "Loaded criteria Shell matcher for project '%s'"
             [AStr (Project action)];;
        mret (loaded + 1)
      else
        logf Error "Unknown action type: %s for action %s"
             [AStr (Type_ action); AStr (Project action)];;
        mret loaded
  | None => mret loaded
  end.

Fixpoint loadLoop (data : list ActionSet) (loaded : Z) : M Z :=
  match data with
  | [] => mret loaded
  | actionSet :: rest =>
      loaded' ← loadOne actionSet loaded;
      loadLoop rest loaded'
  end.

Definition LoadActions (actionsCfgPath : string) : M unit :=
  emit (FileRead actionsCfgPath);;
  let '(content, err) := ioutil_ReadFile env actionsCfgPath in
  match err with
  | Some e => logf Error "Unable to load actions: %s" [AStr e];; os_Exit 1
  | None => mret tt
  end;;
  emit (YamlUnmarshal content);;
  let '(data, err) := yaml_Unmarshal env content in
  match err with
  | Some e => logf Error "Unable to read actions configuration: %s" [AStr e]
  | None => mret tt
  end;;
  loaded ← loadLoop data 0;
  logf Info "Loaded %d matchers" [AInt loaded].

(** ** connectAMQP *)

Definition setConn (c : option Connection) : M unit :=
  r ← getRtr;
  setRtr {| conn := c; channel := channel r; queue := queue r;
            actions := actions r; user := user r; password := password r;
            fqdn := fqdn r; port := port r |}.

Definition setChannel (c : option Channel) : M unit :=
  r ← getRtr;
  setRtr {| conn := conn r; channel := c; queue := queue r;
            actions := actions r; user := user r; password := password r;
            fqdn := fqdn r; port := port r |}.

Definition setQueue (q : Queue) : M unit :=
  r ← getRtr;
  setRtr {| conn := conn r; channel := channel r; queue := q;
            actions := actions r; user := user r; password := password r;
            fqdn := fqdn r; port := port r |}.

(** The connection string built by the two [fmt.Sprintf] calls. *)
Definition connstrOf (r : Reactor) : string :=
  if decide (port r > 0) then
    "amqps://" +:+ user r +:+ ":" +:+ password r +:+ "@" +:+ fqdn r
      +:+ ":" +:+ pretty (port r) +:+ "/"
  else
    "amqps://" +:+ user r +:+ ":" +:+ password r +:+ "@" +:+ fqdn r +:+ "/".

(** A method called through a nil handle panics. *)
Definition deref {A} (h : option A) : M A :=
  match h with
  | Some a => mret a
  | None => nilDeref
  end.

Definition connectAMQP : M (option error) :=
  r ← getRtr;
  if decide (user r = "" \/ fqdn r = "") then
    let err := "Error connecting to the AMQP server: user or FQDN are missing" in
    logf Error err [];;
    mret (Some err)
  else
    let connstr := connstrOf r in
    emit (NetDial connstr);;
    let '(c, err) := amqp_Dial env connstr in
    setConn c;;
    match err with
    | Some e =>
        logf Error "Error connecting to the AMQP server: %s" [AStr e];;
        mret (Some e)
    | None =>
        logf Info "Connected to AMQP at %s" [AStr (fqdn r)];;
        (* Setup channel: the error of Channel() is overwritten unread *)
        cn ← deref c;
        emit NetChannel;;
        let '(ch, _) := conn_Channel env cn in
        setChannel ch;;
        chn ← deref ch;
        emit (NetExchangeDeclarePassive "pubsub" "topic" true false false false);;
        match ch_ExchangeDeclarePassive env chn "pubsub" "topic"
                true false false false with
        | Some e =>
            logf Error "Error creating AMQP channel: %s" [AStr e];;
            mret (Some e)
        | None =>
            logf Info "Created AMQP channel" [];;
            (* Setup queue *)
            emit (NetQueueDeclare "" false false true false);;
            let '(q, err) := ch_QueueDeclare env chn "" false false true false in
            setQueue q;;
            match err with
            | Some e =>
                logf Error "Error setting up queue: %s" [AStr e];;
                mret (Some e)
            | None =>
                logf Info "Default queue declared" [];;
                emit (NetQueueBind (Name q) "#" "pubsub" false);;
                match ch_QueueBind env chn (Name q) "#" "pubsub" false with
                | Some e =>
                    logf Error "Error binding queue '%s' to the channel: %s"
                         [AStr (Name q); AStr e];;
                    mret (Some e)
                | None =>
                    logf Info "Bound queue '%s' to the channel" [AStr (Name q)];;
                    mret None
                end
            end
        end
    end.

(** ** consume and Run, up to the point where Run waits *)

(** [consume] registers the consumer; on success it makes the [looper]
    channel, starts the goroutine that ranges over the deliveries, and
    waits on [looper].  What happens from there on is [step] below. *)
Definition consume : M (option error) :=
  r ← getRtr;
  chn ← deref (channel r);
  emit (NetConsume (Name (queue r)) "" true false false false);;
  match ch_Consume env chn (Name (queue r)) "" true false false false with
  | Some e => mret (Some e)
  | None => park
  end.

(** [defer d] around a body: [d] runs when the body returns or panics. *)
Definition defer {A} (d : M unit) (body : M A) : M A :=
  fun st =>
    match body st with
    | (Ret a, st') => (Ret a, snd (d st'))
    | (Panic msg, st') => (Panic msg, snd (d st'))
    | (Exit c, st') => (Exit c, st')
    | (Parked, st') => (Parked, st')
    end.

Definition conn_Close (c : option Connection) : M unit :=
  deref c;; emit NetClose.

Definition Run : M (option error) :=
  err ← connectAMQP;
  match err with
  | None =>
      r ← getRtr;
      defer (conn_Close (conn r))
        (err ← consume;
         match err with
         | Some e => logf Error "Error consuming messages: %s" [AStr e]
         | None => mret tt
         end;;
         mret None)
  | Some _ => mret None
  end.

End Sequential.

(** ** The goroutines

    Once [consume] waits on [looper], the process consists of the main
    goroutine (inside [Run]), the goroutine ranging over [msgChannel], one
    [onDelivery] goroutine per delivery and one [OnMessage] goroutine per
    delivery and action.  [step] runs one of them for one step, or lets
    the broker deliver a message or close the stream. *)

Record Delivery : Type := {
  RoutingKey : string;
  Body : string;
}.

(** A channel: the values offered to its receiver, in order, and whether
    it has been closed. *)
Record Chan (A : Type) : Type := {
  pending : list A;
  closed : bool;
}.
Arguments pending {A} c.
Arguments closed {A} c.

(** [make(chan A)] *)
Definition make_chan {A} : Chan A := {| pending := []; closed := false |}.

(** A receive: [None] when the receiver has to wait; the received value
    is [None] on a closed and drained channel. *)
Definition recv {A} (c : Chan A) : option (option A * Chan A) :=
  match pending c with
  | x :: q => Some (Some x, {| pending := q; closed := closed c |})
  | [] => if closed c then Some (None, c) else None
  end.

Inductive MainPc : Type :=
  | MainWaitLooper                       (* consume: [<-looper] *)
  | MainReturned (err : option error).   (* Run has returned [err] *)

Inductive LoopPc : Type :=
  | LoopStart      (* before the Debug record *)
  | LoopRange      (* [for delivery := range msgChannel] *)
  | LoopDone.      (* the range has ended, the goroutine is gone *)

Inductive Goroutine : Type :=
  | GOnDelivery (delivery : nat) (todo : list ReactorAction)
      (* onDelivery, its parameter stored at address [delivery], with the
         actions still to be ranged over *)
  | GOnMessage (action : ReactorAction) (delivery : nat)
      (* [action.OnMessage(&delivery)] *)
  | GDone.

Record Conc : Type := {
  mainPc : MainPc;
  loopPc : LoopPc;
  msgChannel : Chan Delivery;
  looper : Chan bool;
  heap : list Delivery;
  pool : list Goroutine;
  cactions : list ReactorAction;
  cconn : option Connection;
  ctrace : list Event;
}.

(** The process at the moment [consume] starts to wait. *)
Definition startConc (st : St) : Conc :=
  {| mainPc := MainWaitLooper; loopPc := LoopStart;
     msgChannel := make_chan; looper := make_chan;
     heap := []; pool := [];
     cactions := actions (rtr st); cconn := conn (rtr st);
     ctrace := trace st |}.

Inductive Label : Type :=
  | BrokerDeliver (d : Delivery)   (* a delivery arrives on the stream *)
  | BrokerClose                    (* the connection drops: the stream ends *)
  | RunMain                        (* the goroutine inside Run *)
  | RunLoop                        (* the goroutine ranging over msgChannel *)
  | RunGoroutine (i : nat)         (* the i-th spawned goroutine *)
  | EndOnMessage (i : nat).        (* OnMessage of the i-th goroutine returns *)

Definition setMain (m : MainPc) (l : Chan bool) (es : list Event) (s : Conc) : Conc :=
  {| mainPc := m; loopPc := loopPc s; msgChannel := msgChannel s; looper := l;
     heap := heap s; pool := pool s; cactions := cactions s; cconn := cconn s;
     ctrace := ctrace s ++ es |}.

Definition setLoop (l : LoopPc) (c : Chan Delivery) (h : list Delivery)
    (p : list Goroutine) (es : list Event) (s : Conc) : Conc :=
  {| mainPc := mainPc s; loopPc := l; msgChannel := c; looper := looper s;
     heap := h; pool := p; cactions := cactions s; cconn := cconn s;
     ctrace := ctrace s ++ es |}.

Definition setPool (p : list Goroutine) (es : list Event) (s : Conc) : Conc :=
  setLoop (loopPc s) (msgChannel s) (heap s) p es s.

(** Modelled from the spec: [OnMessage] of the two action variants is
    declared outside reactor.go.  An evaluation runs on its own: it has
    read-only access to the delivery it was given and to the ActionInfo
    of its action, it shares no mutable state with the reactor or with
    another evaluation, and its effect (the outbound call, the command)
    is not an effect of the reactor.  One step of a running evaluation
    of [action] on the delivery stored at [delivery] therefore leaves the
    state of the reactor as it is; an evaluation may take any number of
    such steps. *)
Definition OnMessage_runs (action : ReactorAction) (delivery : nat) (s : Conc)
    : option Conc :=
  Some s.
Arguments OnMessage_runs _ _ _ /.

(** Modelled from the spec: when [OnMessage] returns, the [i]-th
    goroutine ends; its success or failure is logged by the action and
    never propagated to the dispatch loop. *)
Definition OnMessage_returns (i : nat) (s : Conc) : option Conc :=
  Some (setPool (<[i := GDone]> (pool s)) [] s).
Arguments OnMessage_returns _ _ /.

(** The deferred [rtr.conn.Close()] that runs when Run returns. *)
Definition closeEvents (c : option Connection) : list Event :=
  match c with
  | Some _ => [NetClose]
  | None => []
  end.

Definition step (l : Label) (s : Conc) : option Conc :=
  match l with
  | BrokerDeliver d =>
      if closed (msgChannel s) then None
      else Some (setLoop (loopPc s)
                   {| pending := pending (msgChannel s) ++ [d]; closed := false |}
                   (heap s) (pool s) [] s)
  | BrokerClose =>
      if closed (msgChannel s) then None
      else Some (setLoop (loopPc s)
                   {| pending := pending (msgChannel s); closed := true |}
                   (heap s) (pool s) [] s)
  | RunMain =>
      match mainPc s with
      | MainWaitLooper =>
          (* [<-looper], then consume returns nil, Run runs its deferred
             Close and returns nil *)
          '(_, l') ← recv (looper s);
          Some (setMain (MainReturned None) l' (closeEvents (cconn s)) s)
      | MainReturned _ => None
      end
  | RunLoop =>
      match loopPc s with
      | LoopStart =>
          Some (setLoop LoopRange (msgChannel s) (heap s) (pool s)
                  [Log Debug "Listening to the events..." []] s)
      | LoopRange =>
          '(v, c') ← recv (msgChannel s);
          match v with
          | Some delivery =>
              (* [go rtr.onDelivery(delivery)]: the argument is copied into
                 the parameter of the new goroutine *)
              Some (setLoop LoopRange c' (heap s ++ [delivery])
                      (pool s ++ [GOnDelivery (length (heap s)) (cactions s)])
                      [] s)
          | None => Some (setLoop LoopDone c' (heap s) (pool s) [] s)
          end
      | LoopDone => None
      end
  | RunGoroutine i =>
      g ← pool s !! i;
      match g with
      | GOnDelivery delivery (action :: todo) =>
          (* [go action.OnMessage(&delivery)] *)
          Some (setPool
                  (<[i := GOnDelivery delivery todo]> (pool s)
                     ++ [GOnMessage action delivery])
                  [Log Debug "Processing action %s"
                       [AStr (Type_ (GetAction action))]] s)
      | GOnDelivery delivery [] => Some (setPool (<[i := GDone]> (pool s)) [] s)
      | GOnMessage action delivery => OnMessage_runs action delivery s
      | GDone => None
      end
  | EndOnMessage i =>
      g ← pool s !! i;
      match g with
      | GOnMessage _ _ => OnMessage_returns i s
      | _ => None
      end
  end.

Fixpoint run (ls : list Label) (s : Conc) : option Conc :=
  match ls with
  | [] => Some s
  | l :: ls' => s' ← step l s; run ls' s'
  end.

(** * Vocabulary of the statements *)

(** ** Shape of an entry *)

Definition isString (v : iface) : bool :=
  match v with
  | IString _ => true
  | _ => false
  end.

Definition valuesAreStrings (am : list (iface * iface)) : bool :=
  forallb (fun kv => isString kv.2) am.

Definition keysAreStrings (am : list (iface * iface)) : bool :=
  forallb (fun kv => isString kv.1) am.

(** The value of an entry is a mapping with string-valued "package",
    "status" and "arch" and a nested "action" mapping whose values are
    strings. *)
Definition shape (data : iface) : bool :=
  match data with
  | IMap m =>
      isString (index m "package") && isString (index m "status")
      && isString (index m "arch")
      && match index m "action" with
         | IMap am => valuesAreStrings am
         | _ => false
         end
  | _ => false
  end.

Definition keyString (v : iface) : option string :=
  match v with
  | IString s => Some s
  | _ => None
  end.

Definition keysOf (am : list (iface * iface)) : list string :=
  omap (fun kv => keyString kv.1) am.

Definition strOf (v : iface) : string :=
  match v with
  | IString s => s
  | _ => ""
  end.

(** The nested action definition of an entry's value. *)
Definition actionMap (data : iface) : list (iface * iface) :=
  match data with
  | IMap m =>
      match index m "action" with
      | IMap am => am
      | _ => []
      end
  | _ => []
  end.

Definition field (data : iface) (k : string) : string :=
  match data with
  | IMap m => strOf (index m k)
  | _ => ""
  end.

(** The [type] declared by an entry's value: the value under the key
    "type" of its nested action definition, empty when there is none. *)
Definition typeOf (data : iface) : string :=
  strOf (index (actionMap data) "type").

(** A value as the document format describes it; the keys of a Go map
    are pairwise distinct. *)
Definition wellShaped (data : iface) : Prop :=
  shape data = true
  /\ keysAreStrings (actionMap data) = true
  /\ NoDup (keysOf (actionMap data)).

(** ** Documents *)

Definition recognized (t : string) : bool :=
  bool_decide (t = "ci-call") || bool_decide (t = "shell").

(** A top-level entry of a valid document: a single project key with a
    well-shaped value. *)
Definition validEntry (e : ActionSet) : Prop :=
  exists key data, e = [(key, data)] /\ wellShaped data.

Definition entryType (e : ActionSet) : string :=
  match e with
  | (_, data) :: _ => typeOf data
  | [] => ""
  end.

Definition countRecognized (doc : list ActionSet) : nat :=
  length (List.filter (fun e => recognized (entryType e)) doc).

Definition warned (key : string) (data : iface) (st : St) : St :=
  {| rtr := rtr st;
     trace := trace st ++
       [Log Warn "Action on project '%s' with package '%s' does not have defined action type, skipping"
            [AStr key; AStr (field data "package")]] |}.

(** ** Sessions and runs *)

Definition missingCredentials : error :=
  "Error connecting to the AMQP server: user or FQDN are missing".

Definition isConsume (e : Event) : bool :=
  match e with
  | NetConsume _ _ _ _ _ _ => true
  | _ => false
  end.

(** The three set-up calls made on the channel [ch], and their failure. *)
Definition exchangeDeclareFails (env : Env) (ch : Channel) : Prop :=
  exists e,
    ch_ExchangeDeclarePassive env ch "pubsub" "topic" true false false false
    = Some e.

Definition queueDeclareFails (env : Env) (ch : Channel) : Prop :=
  exists e, snd (ch_QueueDeclare env ch "" false false true false) = Some e.

Definition queueBindFails (env : Env) (ch : Channel) : Prop :=
  exists e,
    ch_QueueBind env ch
      (Name (fst (ch_QueueDeclare env ch "" false false true false)))
      "#" "pubsub" false
    = Some e.

Definition consumeFails (env : Env) (st1 : St) (e : error) : Prop :=
  exists ch,
    channel (rtr st1) = Some ch
    /\ ch_Consume env ch (Name (queue (rtr st1))) "" true false false false = Some e.

Definition consumeStarts (env : Env) (st1 : St) : Prop :=
  exists ch,
    channel (rtr st1) = Some ch
    /\ ch_Consume env ch (Name (queue (rtr st1))) "" true false false false = None.

Definition consumeEvent (st1 : St) : Event :=
  NetConsume (Name (queue (rtr st1))) "" true false false false.

(** Run returns [r] to its caller: either before it ever waits, or from
    some state the goroutines reach once it waits on [looper]. *)
Definition RunReturns (env : Env) (st : St) (r : option error) : Prop :=
  (exists st', Run env st = (Ret r, st'))
  \/ (exists st1 ls s,
        Run env st = (Parked, st1)
        /\ run ls (startConc st1) = Some s
        /\ mainPc s = MainReturned r).

(** The steps the ranging goroutine still needs once the stream is
    closed: its Debug record, one per pending delivery, and the one that
    sees the closed channel. *)
Definition loopSteps (s : Conc) : nat :=
  match loopPc s with
  | LoopStart => S (S (length (pending (msgChannel s))))
  | LoopRange => S (length (pending (msgChannel s)))
  | LoopDone => 0
  end.

(** ** Further vocabulary *)

(** The value is a mapping with string-valued "package", "status" and
    "arch" and an "action" mapping whose keys and values are all
    strings. *)
Definition fullShape (data : iface) : bool :=
  shape data && keysAreStrings (actionMap data).

(** The string stored under [k] in a mapping, if any. *)
Definition paramLookup (am : list (iface * iface)) (k : string) : option string :=
  match index am k with
  | IString v => Some v
  | _ => None
  end.

Definition warnRecord (key package : string) : Event :=
  Log Warn "Action on project '%s' with package '%s' does not have defined action type, skipping"
      [AStr key; AStr package].

(** The state after the Error record for an unknown action type. *)
Definition unknownLogged (key : string) (data : iface) (st : St) : St :=
  {| rtr := rtr st;
     trace := trace st ++
       [Log Error "Unknown action type: %s for action %s"
            [AStr (typeOf data); AStr key]] |}.

(** What identifies a loaded action: its kind and its criteria. *)
Definition summary (a : ReactorAction)
    : ActionKind * string * string * string * string * string :=
  (kind a, Project (GetAction a), Package (GetAction a), Status (GetAction a),
   Architecture (GetAction a), Type_ (GetAction a)).

(** The action an entry of a valid document stands for, if any. *)
Definition entrySummary (e : ActionSet)
    : option (ActionKind * string * string * string * string * string) :=
  match e with
  | (key, data) :: _ =>
      if decide (typeOf data = "ci-call") then
        Some (HTTPKind, key, field data "package", field data "status",
              field data "arch", typeOf data)
      else if decide (typeOf data = "shell") then
        Some (ShellKind, key, field data "package", field data "status",
              field data "arch", typeOf data)
      else None
  | [] => None
  end.

(** The state with the credentials replaced. *)
Definition withDial (u p f : string) (n : Z) (st : St) : St :=
  {| rtr := SetAMQPDial u p f n (rtr st); trace := trace st |}.

(** Everything of the reactor but its actions. *)
Definition sameSession (r r' : Reactor) : Prop :=
  conn r' = conn r /\ channel r' = channel r /\ queue r' = queue r
  /\ user r' = user r /\ password r' = password r /\ fqdn r' = fqdn r
  /\ port r' = port r.

(** A computation that neither reads nor writes the credentials: it can
    be run before or after they are set. *)
Definition commutes {A} (m : M A) : Prop :=
  forall u p f n st,
    m (withDial u p f n st) = (fst (m st), withDial u p f n (snd (m st))).

(** Everything of the reactor but its session handles. *)
Definition sameConfig (r r' : Reactor) : Prop :=
  actions r' = actions r /\ user r' = user r /\ password r' = password r
  /\ fqdn r' = fqdn r /\ port r' = port r.

Definition isClose (e : Event) : bool :=
  match e with
  | NetClose => true
  | _ => false
  end.

(** How often the connection has been closed. *)
Definition closes (t : list Event) : nat := length (List.filter isClose t).

Definition isDebug (e : Event) : bool :=
  match e with
  | Log Debug _ _ => true
  | _ => false
  end.

(** Every call of the session set-up succeeds: [c], [ch] and [q] are the
    connection, the channel and the queue the broker hands out. *)
Definition sessionUp (env : Env) (r : Reactor) (c : Connection) (ch : Channel)
    (q : Queue) : Prop :=
  user r <> "" /\ fqdn r <> ""
  /\ amqp_Dial env (connstrOf r) = (Some c, None)
  /\ fst (conn_Channel env c) = Some ch
  /\ ch_ExchangeDeclarePassive env ch "pubsub" "topic" true false false false = None
  /\ ch_QueueDeclare env ch "" false false true false = (q, None)
  /\ ch_QueueBind env ch (Name q) "#" "pubsub" false = None.

(** The reactor holding the session. *)
Definition connected (r : Reactor) (c : Connection) (ch : Channel) (q : Queue)
    : Reactor :=
  {| conn := Some c; channel := Some ch; queue := q; actions := actions r;
     user := user r; password := password r; fqdn := fqdn r; port := port r |}.

(** The effects of a successful set-up, in order. *)
Definition setupTrace (r : Reactor) (q : Queue) : list Event :=
  [NetDial (connstrOf r);
   Log Info "Connected to AMQP at %s" [AStr (fqdn r)];
   NetChannel;
   NetExchangeDeclarePassive "pubsub" "topic" true false false false;
   Log Info "Created AMQP channel" [];
   NetQueueDeclare "" false false true false;
   Log Info "Default queue declared" [];
   NetQueueBind (Name q) "#" "pubsub" false;
   Log Info "Bound queue '%s' to the channel" [AStr (Name q)]].

(** A spawned goroutine refers to a delivery that is stored and to
    actions of the reactor only. *)
Definition goodGoroutine (s : Conc) (g : Goroutine) : Prop :=
  match g with
  | GOnDelivery ref todo =>
      (ref < length (heap s))%nat /\ todo `suffix_of` cactions s
  | GOnMessage a ref => (ref < length (heap s))%nat /\ a ∈ cactions s
  | GDone => True
  end.

(** The deliveries the broker has put on the stream, in order. *)
Fixpoint deliveredBy (ls : list Label) : list Delivery :=
  match ls with
  | [] => []
  | BrokerDeliver d :: ls' => d :: deliveredBy ls'
  | _ :: ls' => deliveredBy ls'
  end.

Definition isOnMessage (g : Goroutine) : bool :=
  match g with
  | GOnMessage _ _ => true
  | _ => false
  end.

(** * Example inputs *)

Definition st0 : St := {| rtr := NewReactor; trace := [] |}.

(** The entry of the scenario: project "proj1" with a shell action. *)
Definition dataShell : iface :=
  IMap [(IString "package", IString "pkgA"); (IString "status", IString "ok");
        (IString "arch", IString "x86_64");
        (IString "action",
         IMap [(IString "type", IString "shell");
               (IString "cmd", IString "notify.sh")])].

(** An entry whose action definition has no "type". *)
Definition dataUntyped : iface :=
  IMap [(IString "package", IString "pkgB"); (IString "status", IString "ok");
        (IString "arch", IString "x86_64");
        (IString "action", IMap [(IString "cmd", IString "notify.sh")])].

(** An entry without "package". *)
Definition dataNoPackage : iface :=
  IMap [(IString "status", IString "ok"); (IString "arch", IString "x86_64");
        (IString "action", IMap [(IString "type", IString "shell")])].

(** An environment in which nothing works. *)
Definition envDown : Env :=
  {| ioutil_ReadFile := fun _ => ("", Some "open: no such file or directory");
     yaml_Unmarshal := fun _ => ([], Some "yaml: unmarshal errors");
     amqp_Dial := fun _ => (None, Some "dial tcp: connection refused");
     conn_Channel := fun _ => (None, Some "channel/connection is not open");
     ch_ExchangeDeclarePassive := fun _ _ _ _ _ _ _ => Some "NOT_FOUND - no exchange";
     ch_QueueDeclare := fun _ _ _ _ _ _ =>
       ({| Name := "" |}, Some "channel/connection is not open");
     ch_QueueBind := fun _ _ _ _ _ => Some "channel/connection is not open";
     ch_Consume := fun _ _ _ _ _ _ _ => Some "channel/connection is not open" |}.

(** The file holds a mapping where a sequence is expected: the decoder
    reports an error and leaves the slice empty. *)
Definition envUnparseable : Env :=
  {| ioutil_ReadFile := fun _ => ("foo: bar", None);
     yaml_Unmarshal := fun _ =>
       ([], Some "yaml: unmarshal errors: line 1: cannot unmarshal !!map into []map[string]interface {}");
     amqp_Dial := amqp_Dial envDown;
     conn_Channel := conn_Channel envDown;
     ch_ExchangeDeclarePassive := ch_ExchangeDeclarePassive envDown;
     ch_QueueDeclare := ch_QueueDeclare envDown;
     ch_QueueBind := ch_QueueBind envDown;
     ch_Consume := ch_Consume envDown |}.

(** A document of three entries, decoded without error. *)
Definition envThree : Env :=
  {| ioutil_ReadFile := fun _ => ("- proj1: ...", None);
     yaml_Unmarshal := fun _ =>
       ([[("proj1", dataShell)]; [("proj2", dataUntyped)]; [("proj3", dataShell)]],
        None);
     amqp_Dial := amqp_Dial envDown;
     conn_Channel := conn_Channel envDown;
     ch_ExchangeDeclarePassive := ch_ExchangeDeclarePassive envDown;
     ch_QueueDeclare := ch_QueueDeclare envDown;
     ch_QueueBind := ch_QueueBind envDown;
     ch_Consume := ch_Consume envDown |}.

(** A broker on which every call succeeds. *)
Definition envUp : Env :=
  {| ioutil_ReadFile := ioutil_ReadFile envThree;
     yaml_Unmarshal := yaml_Unmarshal envThree;
     amqp_Dial := fun _ => (Some 1%nat, None);
     conn_Channel := fun _ => (Some 1%nat, None);
     ch_ExchangeDeclarePassive := fun _ _ _ _ _ _ _ => None;
     ch_QueueDeclare := fun _ _ _ _ _ _ => ({| Name := "amq.gen-Xa2" |}, None);
     ch_QueueBind := fun _ _ _ _ _ => None;
     ch_Consume := fun _ _ _ _ _ _ _ => None |}.

(** The exchange "pubsub" does not exist on the broker. *)
Definition envNoExchange : Env :=
  {| ioutil_ReadFile := ioutil_ReadFile envThree;
     yaml_Unmarshal := yaml_Unmarshal envThree;
     amqp_Dial := amqp_Dial envUp;
     conn_Channel := conn_Channel envUp;
     ch_ExchangeDeclarePassive := fun _ _ _ _ _ _ _ =>
       Some "Exception (404) Reason: NOT_FOUND - no exchange 'pubsub' in vhost '/'";
     ch_QueueDeclare := ch_QueueDeclare envDown;
     ch_QueueBind := ch_QueueBind envDown;
     ch_Consume := ch_Consume envDown |}.

(** The session is set up but the consumer cannot be registered. *)
Definition envNoConsume : Env :=
  {| ioutil_ReadFile := ioutil_ReadFile envThree;
     yaml_Unmarshal := yaml_Unmarshal envThree;
     amqp_Dial := amqp_Dial envUp;
     conn_Channel := conn_Channel envUp;
     ch_ExchangeDeclarePassive := ch_ExchangeDeclarePassive envUp;
     ch_QueueDeclare := ch_QueueDeclare envUp;
     ch_QueueBind := ch_QueueBind envUp;
     ch_Consume := fun _ _ _ _ _ _ _ => Some "channel/connection is not open" |}.

Definition stUp : St :=
  {| rtr := SetAMQPDial "reactor" "secret" "bus.example.org" 5671 NewReactor;
     trace := [] |}.

Definition infoShell : ActionInfo :=
  {| Project := "proj1"; Package := "pkgA"; Status := "ok";
     Architecture := "x86_64"; Params := {[ "cmd" := "notify.sh" ]};
     Type_ := "shell" |}.

Definition infoCI : ActionInfo :=
  {| Project := "proj1"; Package := "pkgA"; Status := "failed";
     Architecture := "x86_64"; Params := {[ "url" := "https://ci.example.org/job" ]};
     Type_ := "ci-call" |}.

Definition delivery1 : Delivery :=
  {| RoutingKey := "obs.package.build_success"; Body := "{project: proj1}" |}.
Definition delivery2 : Delivery :=
  {| RoutingKey := "obs.package.build_fail"; Body := "{project: proj1}" |}.

(** Two actions are loaded, a first delivery has been dispatched and its
    first OnMessage is still running; two more deliveries wait. *)
Definition sBusy : Conc :=
  {| mainPc := MainWaitLooper; loopPc := LoopRange;
     msgChannel := {| pending := [delivery2; delivery1]; closed := false |};
     looper := make_chan;
     heap := [delivery1];
     pool := [GDone; GOnMessage (LoadAction infoShell NewShellAction) 0; GDone];
     cactions := [LoadAction infoShell NewShellAction; LoadAction infoCI NewHTTPAction];
     cconn := Some 1%nat;
     ctrace := [] |}.

(** The scenario entry as another iteration order of its two mappings
    would give it. *)
Definition dataShellReordered : iface :=
  IMap [(IString "action",
         IMap [(IString "cmd", IString "notify.sh");
               (IString "type", IString "shell")]);
        (IString "arch", IString "x86_64");
        (IString "status", IString "ok"); (IString "package", IString "pkgA")].

(** An entry with a type that is neither "ci-call" nor "shell". *)
Definition dataMail : iface :=
  IMap [(IString "package", IString "pkgC"); (IString "status", IString "ok");
        (IString "arch", IString "x86_64");
        (IString "action",
         IMap [(IString "type", IString "mail");
               (IString "to", IString "ops@example.org")])].

(** An entry whose action definition has an integer key. *)
Definition dataIntKey : iface :=
  IMap [(IString "package", IString "pkgA"); (IString "status", IString "ok");
        (IString "arch", IString "x86_64");
        (IString "action",
         IMap [(IString "type", IString "shell"); (IInt 1, IString "x")])].

(** The connection opens but no channel can be opened on it. *)
Definition envNoChannel : Env :=
  {| ioutil_ReadFile := ioutil_ReadFile envThree;
     yaml_Unmarshal := yaml_Unmarshal envThree;
     amqp_Dial := amqp_Dial envUp;
     conn_Channel := fun _ => (None, Some "channel/connection is not open");
     ch_ExchangeDeclarePassive := ch_ExchangeDeclarePassive envUp;
     ch_QueueDeclare := ch_QueueDeclare envUp;
     ch_QueueBind := ch_QueueBind envUp;
     ch_Consume := ch_Consume envUp |}.

(** A connected reactor with two actions, at the moment Run starts to
    wait, and a schedule: a delivery arrives, is taken by the ranging
    goroutine and dispatched to the first action. *)
Definition stLoaded : St :=
  {| rtr := {| conn := Some 1%nat; channel := Some 1%nat;
               queue := {| Name := "amq.gen-Xa2" |};
               actions := [LoadAction infoShell NewShellAction;
                           LoadAction infoCI NewHTTPAction];
               user := "reactor"; password := "secret";
               fqdn := "bus.example.org"; port := 5671 |};
     trace := [] |}.

Definition scheduleOne : list Label :=
  [RunLoop; BrokerDeliver delivery1; RunLoop; RunGoroutine 0].

(** A connected reactor without actions. *)
Definition stIdle : St :=
  {| rtr := {| conn := Some 1%nat; channel := Some 1%nat;
               queue := {| Name := "amq.gen-Xa2" |};
               actions := [];
               user := "reactor"; password := "secret";
               fqdn := "bus.example.org"; port := 5671 |};
     trace := [] |}.

(** An entry whose "type" is written without a value: the decoder
    gives the nil interface. *)
Definition dataNullType : iface :=
  IMap [(IString "package", IString "pkgB"); (IString "status", IString "ok");
        (IString "arch", IString "x86_64");
        (IString "action",
         IMap [(IString "type", INil); (IString "cmd", IString "notify.sh")])].

(** An entry with neither "type" nor "package". *)
Definition dataUntypedNoPackage : iface :=
  IMap [(IString "status", IString "ok"); (IString "arch", IString "x86_64");
        (IString "action", IMap [(IString "cmd", IString "notify.sh")])].

(** * Properties *)

Ltac unfold_monad :=
  unfold mbind, mret, M_bind, M_ret, mbind_M, mret_M, lift, logf, emit,
    Outcome_bind, Outcome_ret, obind in *.

(** ** Shape of an entry *)

Lemma assertString_panics v :
  isString v = false -> exists msg, assertString v = Panic msg.
Proof. destruct v; simpl; intros H; try discriminate; eauto. Qed.

Lemma assertString_returns v :
  isString v = true -> exists s, v = IString s.
Proof. destruct v; simpl; intros H; try discriminate; eauto. Qed.

Lemma assertMap_panics v :
  (forall m, v <> IMap m) -> exists msg, assertMap v = Panic msg.
Proof. destruct v; simpl; intros H; eauto. now destruct (H m). Qed.

Lemma scanAction_ret_or_panic am : forall actionType params,
  (exists r, scanAction am actionType params = Ret r)
  \/ (exists msg, scanAction am actionType params = Panic msg).
Proof.
  induction am as [|[pkey pval] rest IH]; intros actionType params; simpl.
  - left; eauto.
  - destruct pkey; simpl; try (right; eauto; fail).
    destruct (decide (s = "type")); destruct pval; simpl;
      try (right; eauto; fail); apply IH.
Qed.

Lemma scanAction_panics am : forall actionType params,
  valuesAreStrings am = false ->
  exists msg, scanAction am actionType params = Panic msg.
Proof.
  induction am as [|[pkey pval] rest IH]; intros actionType params; simpl.
  - discriminate.
  - intros H. apply andb_false_iff in H.
    destruct pkey; simpl; eauto.
    destruct (decide (s = "type")); destruct pval; simpl in *; eauto;
      destruct H as [H|H]; try discriminate; eauto.
Qed.

(** An entry without keys: the loop body never runs. *)
Lemma getAction_empty st : getAction [] st = (Ret None, st).
Proof. reflexivity. Qed.

Lemma getAction_shape_panics key data rest st :
  shape data = false ->
  exists msg, getAction ((key, data) :: rest) st = (Panic msg, st).
Proof.
  intros Hshape. unfold getAction. unfold_monad.
  destruct data as [| | | |l|m]; simpl in *; eauto.
  destruct (index m "action") as [| | | |l|am] eqn:Hact; simpl in *;
    try (eauto; fail).
  destruct (scanAction_ret_or_panic am "" ∅) as [[[t p] Hs]|[msg Hs]];
    rewrite Hs; simpl; eauto.
  destruct (valuesAreStrings am) eqn:Hvals.
  - rewrite andb_true_r in Hshape.
    destruct (index m "package"); simpl in *; eauto.
    destruct (index m "status"); simpl in *; eauto.
    destruct (index m "arch"); simpl in *; eauto.
    discriminate.
  - destruct (scanAction_panics am "" ∅ Hvals) as [msg Hp]. congruence.
Qed.

(** ** Well-shaped entries *)

Lemma index_absent am k : k ∉ keysOf am -> index am k = INil.
Proof.
  induction am as [|[k' v] rest IH]; simpl; intros Hk; [reflexivity|].
  unfold keysOf in Hk. simpl in Hk.
  destruct k' as [| | |s| |]; simpl in *; try (apply IH; exact Hk).
  rewrite not_elem_of_cons in Hk. destruct Hk as [Hne Hk].
  rewrite bool_decide_eq_false_2 by congruence. apply IH. exact Hk.
Qed.

Lemma scanAction_wellShaped am : forall actionType params,
  keysAreStrings am = true -> valuesAreStrings am = true ->
  NoDup (keysOf am) ->
  exists params',
    scanAction am actionType params
    = Ret (match index am "type" with IString s => s | _ => actionType end,
           params').
Proof.
  induction am as [|[pkey pval] rest IH]; intros actionType params Hk Hv Hnd.
  - simpl. eauto.
  - simpl in Hk, Hv. apply andb_true_iff in Hk as [Hk1 Hk].
    apply andb_true_iff in Hv as [Hv1 Hv].
    destruct (assertString_returns _ Hk1) as [s ->].
    destruct (assertString_returns _ Hv1) as [v ->].
    unfold keysOf in Hnd. simpl in Hnd. apply NoDup_cons in Hnd as [Hnotin Hnd].
    simpl. destruct (decide (s = "type")) as [->|Hne]; simpl.
    + destruct (IH v params Hk Hv Hnd) as [p' Hp']. rewrite Hp'.
      rewrite (index_absent rest "type" Hnotin). eauto.
    + rewrite bool_decide_eq_false_2 by exact Hne. apply IH; assumption.
Qed.

(** What [getAction] does on an entry whose first visited value is well
    shaped: a record without a type is dropped with a warning, any other
    one is returned. *)
Lemma getAction_wellShaped key data rest st :
  wellShaped data ->
  exists params,
    getAction ((key, data) :: rest) st
    = if decide (typeOf data = "") then
        (Ret None,
         {| rtr := rtr st;
            trace := trace st ++
              [Log Warn "Action on project '%s' with package '%s' does not have defined action type, skipping"
                   [AStr key; AStr (field data "package")]] |})
      else
        (Ret (Some {| Project := key; Package := field data "package";
                      Status := field data "status";
                      Architecture := field data "arch";
                      Params := params; Type_ := typeOf data |}), st).
Proof.
  intros (Hshape & Hkeys & Hnd).
  destruct data as [| | | |l|m]; simpl in Hshape; try discriminate.
  unfold typeOf, field, actionMap in *.
  destruct (index m "action") as [| | | |l|am] eqn:Hact;
    try (rewrite !andb_false_r in Hshape; discriminate).
  apply andb_true_iff in Hshape as [Hshape Hvals].
  apply andb_true_iff in Hshape as [Hshape Harch].
  apply andb_true_iff in Hshape as [Hpkg Hstatus].
  destruct (assertString_returns _ Hpkg) as [pkg Epkg].
  destruct (assertString_returns _ Hstatus) as [status Estatus].
  destruct (assertString_returns _ Harch) as [arch Earch].
  destruct (scanAction_wellShaped am "" ∅ Hkeys Hvals Hnd) as [params Hscan].
  exists params. unfold getAction. unfold_monad. simpl.
  rewrite Hact. simpl. rewrite Hscan. simpl.
  rewrite Epkg, Estatus, Earch. simpl.
  assert (Htype : match index am "type" with IString s => s | _ => "" end
                  = strOf (index am "type")) by (destruct (index am "type"); reflexivity).
  rewrite Htype.
  destruct (decide (strOf (index am "type") = "")); reflexivity.
Qed.

(** ** Loading a document *)

Lemma loadOne_untyped key data rest loaded st :
  wellShaped data -> typeOf data = "" ->
  getAction ((key, data) :: rest) st = (Ret None, warned key data st)
  /\ loadOne ((key, data) :: rest) loaded st = (Ret loaded, warned key data st).
Proof.
  intros Hws Htype.
  destruct (getAction_wellShaped key data rest st Hws) as [params Hget].
  rewrite decide_True in Hget by exact Htype.
  split; [exact Hget|].
  unfold loadOne. unfold_monad. rewrite Hget. reflexivity.
Qed.

Lemma loadOne_wellShaped key data rest loaded st :
  wellShaped data ->
  exists st',
    loadOne ((key, data) :: rest) loaded st
    = (Ret (loaded + (if recognized (typeOf data) then 1 else 0)), st')
    /\ length (actions (rtr st'))
       = (length (actions (rtr st))
          + (if recognized (typeOf data) then 1 else 0))%nat.
Proof.
  intros Hws.
  destruct (decide (typeOf data = "")) as [Hempty|Htyped].
  - destruct (loadOne_untyped key data rest loaded st Hws Hempty) as [_ H].
    rewrite H, Hempty. simpl. exists (warned key data st).
    split; [f_equal; f_equal; lia|simpl; lia].
  - destruct (getAction_wellShaped key data rest st Hws) as [params Hget].
    rewrite decide_False in Hget by exact Htyped.
    unfold loadOne. unfold_monad. rewrite Hget. simpl.
    unfold recognized, ACTION_TYPE_CI, ACTION_TYPE_SHELL, getRtr, setRtr.
    destruct (decide (typeOf data = "ci-call")) as [Hci|Hci].
    + rewrite (bool_decide_eq_true_2 _ Hci). simpl.
      eexists. split; [reflexivity|]. simpl. rewrite length_app. reflexivity.
    + rewrite (bool_decide_eq_false_2 _ Hci). simpl.
      destruct (decide (typeOf data = "shell")) as [Hsh|Hsh].
      * rewrite (bool_decide_eq_true_2 _ Hsh). simpl.
        eexists. split; [reflexivity|]. simpl. rewrite length_app. reflexivity.
      * rewrite (bool_decide_eq_false_2 _ Hsh). simpl.
        eexists. split; [f_equal; f_equal; lia|simpl; lia].
Qed.

Lemma loadLoop_valid doc : forall loaded st,
  Forall validEntry doc ->
  exists st',
    loadLoop doc loaded st
    = (Ret (loaded + Z.of_nat (countRecognized doc)), st')
    /\ length (actions (rtr st'))
       = (length (actions (rtr st)) + countRecognized doc)%nat.
Proof.
  induction doc as [|e doc IH]; intros loaded st Hvalid.
  - simpl. exists st. unfold countRecognized. simpl.
    split; [unfold_monad; f_equal; f_equal; lia|lia].
  - apply Forall_cons in Hvalid as [(key & data & -> & Hws) Hvalid].
    destruct (loadOne_wellShaped key data [] loaded st Hws) as (st1 & H1 & L1).
    destruct (IH (loaded + (if recognized (typeOf data) then 1 else 0)) st1 Hvalid)
      as (st2 & H2 & L2).
    exists st2. simpl loadLoop. unfold_monad. rewrite H1. unfold_monad.
    rewrite H2. unfold countRecognized in *. simpl.
    destruct (recognized (typeOf data)); simpl in *;
      (split; [f_equal; f_equal; lia|lia]).
Qed.

Lemma dataShell_wellShaped : wellShaped dataShell.
Proof.
  split; [reflexivity|]. split; [reflexivity|].
  apply (bool_decide_unpack _). vm_compute. exact I.
Defined.

Lemma dataUntyped_wellShaped : wellShaped dataUntyped.
Proof.
  split; [reflexivity|]. split; [reflexivity|].
  apply (bool_decide_unpack _). vm_compute. exact I.
Defined.

(** ** Results on loading *)

(** C10: getAction produces at most one ActionInfo per entry, built from
    the first key the range loop visits (it carries that key as its
    Project); whatever other keys the entry has, the result and the
    state are those for the entry reduced to that key. *)
Theorem getAction_uses_first_key_only key data rest st :
  getAction ((key, data) :: rest) st = getAction [(key, data)] st
  /\ match getAction ((key, data) :: rest) st with
     | (Ret (Some action), st') => Project action = key /\ st' = st
     | _ => True
     end.
Proof.
  split; [reflexivity|].
  unfold getAction. unfold_monad.
  repeat case_match; simplify_eq; auto.
Qed.

(** C9: when the value of the visited key is not a mapping with
    string-valued "package", "status" and "arch" and a nested "action"
    mapping with string values, getAction panics; the panic is not turned
    into a skipped record, it ends the loading loop. *)
Theorem getAction_panics_outside_shape key data rest others loaded st :
  shape data = false ->
  exists msg,
    getAction ((key, data) :: rest) st = (Panic msg, st)
    /\ loadLoop (((key, data) :: rest) :: others) loaded st = (Panic msg, st).
Proof.
  intros Hshape.
  destruct (getAction_shape_panics key data rest st Hshape) as [msg Hp].
  exists msg. split; [exact Hp|].
  simpl. unfold loadOne. unfold_monad. rewrite Hp. reflexivity.
Qed.

Lemma getAction_panics_outside_shape_witness :
  exists msg,
    getAction [("proj1", dataNoPackage)] st0 = (Panic msg, st0)
    /\ loadLoop [[("proj1", dataNoPackage)]; [("proj2", dataShell)]] 0 st0
       = (Panic msg, st0).
Proof.
  apply (getAction_panics_outside_shape "proj1" dataNoPackage []
           [[("proj2", dataShell)]] 0 st0).
  reflexivity.
Defined.

(** C5: a well-shaped entry whose action definition has an empty or no
    "type" yields no ActionInfo and no Action: one warning is logged, the
    reactor is unchanged, and the loop goes on with the entries after
    it. *)
Theorem untyped_entry_is_skipped key data rest others loaded st :
  wellShaped data -> typeOf data = "" ->
  getAction ((key, data) :: rest) st = (Ret None, warned key data st)
  /\ rtr (warned key data st) = rtr st
  /\ loadLoop (((key, data) :: rest) :: others) loaded st
     = loadLoop others loaded (warned key data st).
Proof.
  intros Hws Htype.
  destruct (loadOne_untyped key data rest loaded st Hws Htype) as [Hget Hone].
  split; [exact Hget|]. split; [reflexivity|].
  simpl. unfold_monad. rewrite Hone. reflexivity.
Qed.

Lemma untyped_entry_is_skipped_witness :
  getAction [("proj2", dataUntyped)] st0
    = (Ret None, warned "proj2" dataUntyped st0)
  /\ rtr (warned "proj2" dataUntyped st0) = rtr st0
  /\ loadLoop [[("proj2", dataUntyped)]; [("proj3", dataShell)]] 0 st0
     = loadLoop [[("proj3", dataShell)]] 0 (warned "proj2" dataUntyped st0).
Proof.
  apply (untyped_entry_is_skipped "proj2" dataUntyped [] [[("proj3", dataShell)]] 0 st0).
  - exact dataUntyped_wellShaped.
  - reflexivity.
Defined.

(** C5, as stated for every entry, fails: an entry without a type that
    also lacks "package", and an entry whose "type" has no value, make
    getAction panic at a type assertion before it tests the type; no
    warning is logged and the entry after it is not loaded. *)
Lemma untyped_entry_can_panic :
  typeOf dataUntypedNoPackage = ""
  /\ (exists msg,
        getAction [("proj2", dataUntypedNoPackage)] st0 = (Panic msg, st0)
        /\ loadLoop [[("proj2", dataUntypedNoPackage)]; [("proj3", dataShell)]] 0 st0
           = (Panic msg, st0))
  /\ typeOf dataNullType = ""
  /\ (exists msg,
        getAction [("proj2", dataNullType)] st0 = (Panic msg, st0)
        /\ loadLoop [[("proj2", dataNullType)]; [("proj3", dataShell)]] 0 st0
           = (Panic msg, st0)).
Proof.
  split; [reflexivity|]. split; [eexists; split; reflexivity|].
  split; [reflexivity|]. eexists; split; reflexivity.
Qed.

(** C3: for a document that is read and decoded without error and whose
    entries are single-project and well shaped, LoadActions returns, the
    number of Actions it appends to the reactor is the number of entries
    whose type is "ci-call" or "shell", and that number is the one it
    reports. *)
Theorem LoadActions_counts_recognized env path content doc st :
  ioutil_ReadFile env path = (content, None) ->
  yaml_Unmarshal env content = (doc, None) ->
  Forall validEntry doc ->
  exists st',
    LoadActions env path st = (Ret tt, st')
    /\ length (actions (rtr st'))
       = (length (actions (rtr st)) + countRecognized doc)%nat
    /\ last (trace st')
       = Some (Log Info "Loaded %d matchers"
                   [AInt (Z.of_nat (countRecognized doc))]).
Proof.
  intros Hread Hyaml Hvalid.
  destruct (loadLoop_valid doc 0
              {| rtr := rtr st;
                 trace := (trace st ++ [FileRead path]) ++ [YamlUnmarshal content] |}
              Hvalid) as (st1 & Hloop & Hlen).
  unfold LoadActions. unfold_monad. simpl. rewrite Hread. simpl.
  rewrite Hyaml. simpl. rewrite Hloop. simpl.
  eexists. split; [reflexivity|]. simpl. split; [exact Hlen|].
  rewrite last_snoc. reflexivity.
Qed.

Lemma LoadActions_counts_recognized_witness :
  exists st',
    LoadActions envThree "actions.conf" st0 = (Ret tt, st')
    /\ length (actions (rtr st')) = 2%nat
    /\ last (trace st') = Some (Log Info "Loaded %d matchers" [AInt 2]).
Proof.
  apply (LoadActions_counts_recognized envThree "actions.conf" "- proj1: ..."
           [[("proj1", dataShell)]; [("proj2", dataUntyped)]; [("proj3", dataShell)]]
           st0).
  - reflexivity.
  - reflexivity.
  - repeat constructor.
    + exists "proj1", dataShell. split; [reflexivity|exact dataShell_wellShaped].
    + exists "proj2", dataUntyped. split; [reflexivity|exact dataUntyped_wellShaped].
    + exists "proj3", dataShell. split; [reflexivity|exact dataShell_wellShaped].
Defined.

(** The scenario of the document with the single entry "proj1": one
    Action of the local-command kind, bound to that project. *)
Example loadLoop_scenario_shell :
  let '(o, st) := loadLoop [[("proj1", dataShell)]] 0 st0 in
  o = Ret 1
  /\ map (fun a => (kind a, Project (GetAction a), Type_ (GetAction a)))
         (actions (rtr st))
     = [(ShellKind, "proj1", "shell")].
Proof. vm_compute. split; reflexivity. Qed.

(** When the file is read, LoadActions never stops the process: a
    decoder error is logged and the loop runs over whatever was decoded. *)
Lemma LoadActions_decoder_error env path content data e st :
  ioutil_ReadFile env path = (content, None) ->
  yaml_Unmarshal env content = (data, Some e) ->
  LoadActions env path st
  = (loaded ← loadLoop data 0; logf Info "Loaded %d matchers" [AInt loaded])
      {| rtr := rtr st;
         trace := trace st ++
           [FileRead path; YamlUnmarshal content;
            Log Error "Unable to read actions configuration: %s" [AStr e]] |}.
Proof.
  intros Hread Hyaml. unfold LoadActions. unfold_monad. simpl.
  rewrite Hread. simpl. rewrite Hyaml. simpl.
  rewrite <- !app_assoc. reflexivity.
Qed.

(** C1: on a document that cannot be decoded LoadActions logs the error
    and returns to its caller with a reactor holding no action; the
    process is not stopped. *)
Example LoadActions_unparseable_returns :
  LoadActions envUnparseable "actions.conf" st0
  = (Ret tt,
     {| rtr := NewReactor;
        trace :=
          [FileRead "actions.conf"; YamlUnmarshal "foo: bar";
           Log Error "Unable to read actions configuration: %s"
               [AStr "yaml: unmarshal errors: line 1: cannot unmarshal !!map into []map[string]interface {}"];
           Log Info "Loaded %d matchers" [AInt 0]] |}).
Proof. reflexivity. Qed.

(** The sibling path: a file that cannot be read stops the process. *)
Example LoadActions_unreadable_exits :
  fst (LoadActions envDown "actions.conf" st0) = Exit 1.
Proof. reflexivity. Qed.

(** ** Results on connecting *)

(** C4: with an empty user or an empty host connectAMQP returns the
    missing-credentials error at once: the reactor is untouched, the only
    effect is the Error record, no broker call is made and the answer
    does not depend on the environment. *)
Theorem connectAMQP_missing_credentials env st :
  user (rtr st) = "" \/ fqdn (rtr st) = "" ->
  connectAMQP env st
  = (Ret (Some missingCredentials),
     {| rtr := rtr st;
        trace := trace st ++ [Log Error missingCredentials []] |})
  /\ List.filter isNetwork (trace (snd (connectAMQP env st)))
     = List.filter isNetwork (trace st).
Proof.
  intros Hmissing.
  assert (H : connectAMQP env st
              = (Ret (Some missingCredentials),
                 {| rtr := rtr st;
                    trace := trace st ++ [Log Error missingCredentials []] |})).
  { unfold connectAMQP, getRtr. unfold_monad.
    rewrite decide_True by exact Hmissing. reflexivity. }
  split; [exact H|]. rewrite H. simpl.
  rewrite List.filter_app. simpl. apply app_nil_r.
Qed.

Lemma connectAMQP_missing_credentials_witness :
  connectAMQP envDown {| rtr := SetAMQPDial "" "secret" "bus.example.org" 5671 NewReactor;
                         trace := [] |}
  = (Ret (Some missingCredentials),
     {| rtr := SetAMQPDial "" "secret" "bus.example.org" 5671 NewReactor;
        trace := [Log Error missingCredentials []] |})
  /\ List.filter isNetwork
       (trace (snd (connectAMQP envDown
          {| rtr := SetAMQPDial "" "secret" "bus.example.org" 5671 NewReactor;
             trace := [] |})))
     = [].
Proof.
  apply (connectAMQP_missing_credentials envDown
           {| rtr := SetAMQPDial "" "secret" "bus.example.org" 5671 NewReactor;
              trace := [] |}).
  left. reflexivity.
Defined.

Lemma Run_connect_failed env st e st1 :
  connectAMQP env st = (Ret (Some e), st1) -> Run env st = (Ret None, st1).
Proof. intros H. unfold Run. unfold_monad. rewrite H. reflexivity. Qed.

Lemma connectAMQP_setup_fails env st c ch cherr :
  user (rtr st) <> "" -> fqdn (rtr st) <> "" ->
  amqp_Dial env (connstrOf (rtr st)) = (Some c, None) ->
  conn_Channel env c = (Some ch, cherr) ->
  exchangeDeclareFails env ch \/ queueDeclareFails env ch \/ queueBindFails env ch ->
  exists e added,
    connectAMQP env st
    = (Ret (Some e),
       {| rtr := rtr (snd (connectAMQP env st)); trace := trace st ++ added |})
    /\ forallb (fun ev => negb (isConsume ev)) added = true.
Proof.
  intros Hu Hf Hdial Hchan Hfail.
  unfold exchangeDeclareFails, queueDeclareFails, queueBindFails in Hfail.
  unfold connectAMQP, getRtr, setConn, setChannel, setQueue, getRtr, setRtr, deref.
  unfold_monad.
  rewrite decide_False by tauto.
  simpl. rewrite Hdial. simpl. rewrite Hchan. simpl.
  destruct (ch_ExchangeDeclarePassive env ch "pubsub" "topic" true false false false)
    as [e1|] eqn:Hex; simpl.
  { eexists _, [_; _; _; _; _]. rewrite <- !app_assoc. simpl.
    split; reflexivity. }
  destruct (ch_QueueDeclare env ch "" false false true false) as [q [e2|]] eqn:Hq;
    simpl in *.
  { eexists _, [_; _; _; _; _; _; _]. rewrite <- !app_assoc. simpl.
    split; reflexivity. }
  destruct (ch_QueueBind env ch (Name q) "#" "pubsub" false) as [e3|] eqn:Hb; simpl.
  { eexists _, [_; _; _; _; _; _; _; _; _]. rewrite <- !app_assoc. simpl.
    split; reflexivity. }
  destruct Hfail as [[e He]|[[e He]|[e He]]]; discriminate.
Qed.

(** C6: once the connection and its channel are open, a failure of the
    exchange declaration, of the queue declaration or of the binding
    makes connectAMQP return that error; Run then returns without
    registering a consumer, so the consume loop is never started. *)
Theorem setup_failure_aborts_startup env st c ch cherr :
  user (rtr st) <> "" -> fqdn (rtr st) <> "" ->
  amqp_Dial env (connstrOf (rtr st)) = (Some c, None) ->
  conn_Channel env c = (Some ch, cherr) ->
  exchangeDeclareFails env ch \/ queueDeclareFails env ch \/ queueBindFails env ch ->
  exists e st1 added,
    connectAMQP env st = (Ret (Some e), st1)
    /\ Run env st = (Ret None, st1)
    /\ trace st1 = (trace st ++ added)%list
    /\ forallb (fun ev => negb (isConsume ev)) added = true.
Proof.
  intros Hu Hf Hdial Hchan Hfail.
  destruct (connectAMQP_setup_fails env st c ch cherr Hu Hf Hdial Hchan Hfail)
    as (e & added & Hconn & Hadded).
  exists e, {| rtr := rtr (snd (connectAMQP env st)); trace := trace st ++ added |}, added.
  split; [exact Hconn|]. split; [|split; [reflexivity|exact Hadded]].
  apply (Run_connect_failed env st e). exact Hconn.
Qed.

Lemma setup_failure_aborts_startup_witness :
  exists e st1 added,
    connectAMQP envNoExchange stUp = (Ret (Some e), st1)
    /\ Run envNoExchange stUp = (Ret None, st1)
    /\ trace st1 = (trace stUp ++ added)%list
    /\ forallb (fun ev => negb (isConsume ev)) added = true.
Proof.
  apply (setup_failure_aborts_startup envNoExchange stUp 1%nat 1%nat None).
  - discriminate.
  - discriminate.
  - reflexivity.
  - reflexivity.
  - left. eexists. reflexivity.
Defined.

(** ** Run as a whole *)

Lemma connectAMQP_connected env st st1 :
  connectAMQP env st = (Ret None, st1) ->
  (exists c, conn (rtr st1) = Some c) /\ (exists ch, channel (rtr st1) = Some ch).
Proof.
  unfold connectAMQP, getRtr, setConn, setChannel, setQueue, getRtr, setRtr,
    deref, nilDeref.
  unfold_monad. intros H.
  repeat (case_match; simplify_eq; simpl in *); eauto.
Qed.

Lemma connectAMQP_outcome env st :
  (exists r, fst (connectAMQP env st) = Ret r)
  \/ (exists msg, fst (connectAMQP env st) = Panic msg).
Proof.
  unfold connectAMQP, getRtr, setConn, setChannel, setQueue, getRtr, setRtr,
    deref, nilDeref.
  unfold_monad.
  repeat (case_match; simplify_eq; simpl in *); eauto.
Qed.

Lemma Run_consume_failed env st st1 e :
  connectAMQP env st = (Ret None, st1) -> consumeFails env st1 e ->
  Run env st
  = (Ret None,
     {| rtr := rtr st1;
        trace := trace st1 ++
          [consumeEvent st1; Log Error "Error consuming messages: %s" [AStr e];
           NetClose] |}).
Proof.
  intros Hconn (ch & Hch & Hcons).
  destruct (connectAMQP_connected env st st1 Hconn) as [[c Hc] _].
  unfold Run, defer, consume, conn_Close, deref, getRtr, consumeEvent.
  unfold_monad. rewrite Hconn. simpl. rewrite Hch. simpl. rewrite Hcons. simpl.
  rewrite Hc. simpl. rewrite <- !app_assoc. reflexivity.
Qed.

Lemma Run_consume_started env st st1 :
  connectAMQP env st = (Ret None, st1) -> consumeStarts env st1 ->
  Run env st
  = (Parked, {| rtr := rtr st1; trace := trace st1 ++ [consumeEvent st1] |}).
Proof.
  intros Hconn (ch & Hch & Hcons).
  unfold Run, defer, consume, conn_Close, deref, getRtr, consumeEvent, park.
  unfold_monad. rewrite Hconn. simpl. rewrite Hch. simpl. rewrite Hcons.
  reflexivity.
Qed.

Lemma Run_connect_panicked env st st1 msg :
  connectAMQP env st = (Panic msg, st1) -> Run env st = (Panic msg, st1).
Proof. intros H. unfold Run. unfold_monad. rewrite H. reflexivity. Qed.

(** The ways Run can go, by what connecting and registering answer. *)
Lemma Run_cases env st :
  (exists e st1, connectAMQP env st = (Ret (Some e), st1)
                 /\ Run env st = (Ret None, st1))
  \/ (exists st1 e, connectAMQP env st = (Ret None, st1)
                    /\ consumeFails env st1 e
                    /\ exists st2, Run env st = (Ret None, st2))
  \/ (exists st1, connectAMQP env st = (Ret None, st1)
                  /\ consumeStarts env st1
                  /\ exists st2, Run env st = (Parked, st2))
  \/ (exists msg st1, Run env st = (Panic msg, st1)).
Proof.
  destruct (connectAMQP env st) as [o st1] eqn:Hconn.
  destruct (connectAMQP_outcome env st) as [[r Hr]|[msg Hm]];
    rewrite Hconn in *; simpl in *; subst o.
  - destruct r as [e|].
    + left. exists e, st1. split; [reflexivity|].
      apply (Run_connect_failed env st e). exact Hconn.
    + right. destruct (connectAMQP_connected env st st1 Hconn) as [_ [ch Hch]].
      destruct (ch_Consume env ch (Name (queue (rtr st1))) "" true false false false)
        as [e|] eqn:Hcons.
      * left. exists st1, e. split; [reflexivity|].
        assert (Hf : consumeFails env st1 e) by (exists ch; auto).
        split; [exact Hf|]. eexists. apply (Run_consume_failed env st st1 e Hconn Hf).
      * right. left. exists st1. split; [reflexivity|].
        assert (Hs : consumeStarts env st1) by (exists ch; auto).
        split; [exact Hs|]. eexists. apply (Run_consume_started env st st1 Hconn Hs).
  - right. right. right. exists msg, st1.
    apply Run_connect_panicked. exact Hconn.
Qed.

(** ** Invariants of the goroutines *)

(** Nobody ever sends on [looper] or closes it, so the main goroutine
    stays where it is. *)
Lemma step_keeps_main_waiting l s s' :
  step l s = Some s' ->
  looper s = make_chan ->
  looper s' = make_chan /\ mainPc s' = mainPc s /\ cactions s' = cactions s.
Proof.
  intros Hstep Hlooper.
  destruct l as [d| | | |i|i]; simpl in Hstep; unfold setPool in *.
  - destruct (closed (msgChannel s)); simplify_eq; auto.
  - destruct (closed (msgChannel s)); simplify_eq; auto.
  - destruct (mainPc s); [|discriminate].
    rewrite Hlooper in Hstep. discriminate.
  - destruct (loopPc s); simplify_eq; auto.
    destruct (recv (msgChannel s)) as [[[delivery|] c']|];
      simpl in Hstep; simplify_eq; auto.
  - destruct (pool s !! i) as [[delivery [|action todo]|action delivery|]|];
      simpl in Hstep; simplify_eq; auto.
  - destruct (pool s !! i) as [[delivery todo|action delivery|]|];
      simpl in Hstep; simplify_eq; auto.
Qed.

Lemma run_keeps_main_waiting ls : forall s s',
  run ls s = Some s' ->
  looper s = make_chan ->
  looper s' = make_chan /\ mainPc s' = mainPc s /\ cactions s' = cactions s.
Proof.
  induction ls as [|l ls IH]; intros s s' Hrun Hlooper; simpl in Hrun.
  - simplify_eq. auto.
  - destruct (step l s) as [s1|] eqn:Hstep; simpl in Hrun; [|discriminate].
    destruct (step_keeps_main_waiting l s s1 Hstep Hlooper) as (H1 & H2 & H3).
    destruct (IH s1 s' Hrun H1) as (H4 & H5 & H6).
    repeat split; congruence.
Qed.

Lemma run_from_start st1 ls s :
  run ls (startConc st1) = Some s -> mainPc s = MainWaitLooper.
Proof.
  intros Hrun.
  destruct (run_keeps_main_waiting ls (startConc st1) s Hrun) as (_ & H & _);
    [reflexivity|exact H].
Qed.

Lemma loop_drains q : forall s,
  loopPc s = LoopRange ->
  pending (msgChannel s) = q ->
  closed (msgChannel s) = true ->
  exists s',
    run (replicate (S (length q)) RunLoop) s = Some s'
    /\ loopPc s' = LoopDone /\ mainPc s' = mainPc s.
Proof.
  induction q as [|d q IH]; intros s Hpc Hq Hclosed.
  - simpl. unfold recv. rewrite Hpc, Hq, Hclosed. simpl. eauto.
  - change (replicate (S (length (d :: q))) RunLoop)
      with (RunLoop :: replicate (S (length q)) RunLoop).
    cbn [run]. unfold step. rewrite Hpc. unfold recv. rewrite Hq. cbn [mbind option_bind].
    destruct (IH (setLoop LoopRange {| pending := q; closed := closed (msgChannel s) |}
                    (heap s ++ [d])
                    (pool s ++ [GOnDelivery (length (heap s)) (cactions s)]) [] s))
      as (s' & Hrun & Hdone & Hmain); simpl; auto.
    exists s'. auto.
Qed.

Lemma loop_terminates s :
  closed (msgChannel s) = true ->
  exists s',
    run (replicate (loopSteps s) RunLoop) s = Some s'
    /\ loopPc s' = LoopDone /\ mainPc s' = mainPc s.
Proof.
  intros Hclosed. unfold loopSteps.
  destruct (loopPc s) eqn:Hpc.
  - change (replicate (S (S (length (pending (msgChannel s))))) RunLoop)
      with (RunLoop :: replicate (S (length (pending (msgChannel s)))) RunLoop).
    cbn [run]. unfold step. rewrite Hpc. cbn [mbind option_bind].
    destruct (loop_drains (pending (msgChannel s))
                (setLoop LoopRange (msgChannel s) (heap s) (pool s)
                   [Log Debug "Listening to the events..." []] s))
      as (s' & Hrun & Hdone & Hmain); simpl; auto.
    exists s'. auto.
  - apply (loop_drains (pending (msgChannel s))); auto.
  - simpl. eauto.
Qed.

(** ** Fan-out *)

(** The parameter of an onDelivery goroutine is never written: the heap
    only grows. *)
Lemma step_keeps_heap l s s' ref d :
  step l s = Some s' -> heap s !! ref = Some d -> heap s' !! ref = Some d.
Proof.
  intros Hstep Href.
  destruct l as [d'| | | |i|i]; simpl in Hstep; unfold setPool in *.
  - destruct (closed (msgChannel s)); simplify_eq; auto.
  - destruct (closed (msgChannel s)); simplify_eq; auto.
  - destruct (mainPc s); [|discriminate].
    destruct (recv (looper s)) as [[v l']|]; simpl in Hstep; simplify_eq; auto.
  - destruct (loopPc s); simplify_eq; auto.
    destruct (recv (msgChannel s)) as [[[delivery|] c']|];
      simpl in Hstep; simplify_eq; simpl; auto.
    apply lookup_app_l_Some. exact Href.
  - destruct (pool s !! i) as [[delivery [|action todo]|action delivery|]|];
      simpl in Hstep; simplify_eq; auto.
  - destruct (pool s !! i) as [[delivery todo|action delivery|]|];
      simpl in Hstep; simplify_eq; auto.
Qed.

Lemma run_keeps_heap ls : forall s s' ref d,
  run ls s = Some s' -> heap s !! ref = Some d -> heap s' !! ref = Some d.
Proof.
  induction ls as [|l ls IH]; intros s s' ref d Hrun Href; simpl in Hrun.
  - simplify_eq. exact Href.
  - destruct (step l s) as [s1|] eqn:Hstep; simpl in Hrun; [|discriminate].
    apply (IH s1 s' ref d Hrun). apply (step_keeps_heap l s s1 ref d Hstep Href).
Qed.

(** The onDelivery goroutine [j] with the actions [todo] still to visit
    starts one OnMessage goroutine per action, in order, each with the
    address of its own parameter. *)
Lemma onDelivery_spawns todo : forall s j ref,
  pool s !! j = Some (GOnDelivery ref todo) ->
  exists s',
    run (replicate (length todo) (RunGoroutine j)) s = Some s'
    /\ pool s'
       = (<[j := GOnDelivery ref []]> (pool s)
            ++ map (fun a => GOnMessage a ref) todo)%list
    /\ loopPc s' = loopPc s /\ msgChannel s' = msgChannel s
    /\ heap s' = heap s /\ mainPc s' = mainPc s.
Proof.
  induction todo as [|a todo IH]; intros s j ref Hj.
  - simpl. exists s. rewrite app_nil_r.
    rewrite list_insert_id by exact Hj. repeat split.
  - pose proof (lookup_lt_Some _ _ _ Hj) as Hlt.
    simpl. rewrite Hj. simpl.
    edestruct (IH (setPool (<[j := GOnDelivery ref todo]> (pool s)
                              ++ [GOnMessage a ref])
                     [Log Debug "Processing action %s" [AStr (Type_ (GetAction a))]] s)
                 j ref) as (s' & Hrun & Hpool & H1 & H2 & H3 & H4).
    { simpl. rewrite lookup_app_l by (rewrite length_insert; exact Hlt).
      apply list_lookup_insert_eq. exact Hlt. }
    exists s'. split; [exact Hrun|]. simpl in *.
    split; [|repeat split; assumption].
    rewrite Hpool. rewrite insert_app_l by (rewrite length_insert; exact Hlt).
    rewrite list_insert_insert_eq. rewrite <- app_assoc. reflexivity.
Qed.

(** ** Results on dispatching and running *)

Lemma run_app ls1 ls2 s :
  run (ls1 ++ ls2) s = (s' ← run ls1 s; run ls2 s').
Proof.
  revert s. induction ls1 as [|l ls1 IH]; intros s; simpl; [reflexivity|].
  destruct (step l s); simpl; [apply IH|reflexivity].
Qed.

Lemma lookup_map_Some {A B} (f : A -> B) (l : list A) k a :
  l !! k = Some a -> map f l !! k = Some (f a).
Proof.
  revert k. induction l as [|x l IH]; intros [|k] H; simpl in *;
    try discriminate.
  - congruence.
  - apply IH. exact H.
Qed.

(** An evaluation that keeps running holds up nobody: while the
    goroutine [j] takes [n] steps without coming to an end, the goroutine
    [i] can end. *)
Lemma evaluations_do_not_wait n : forall s i j a a' r r',
  i <> j ->
  pool s !! i = Some (GOnMessage a r) ->
  pool s !! j = Some (GOnMessage a' r') ->
  run (replicate n (RunGoroutine j) ++ [EndOnMessage i]) s
  = Some (setPool (<[i := GDone]> (pool s)) [] s).
Proof.
  induction n as [|n IH]; intros s i j a a' r r' Hij Hi Hj.
  - simpl. rewrite Hi. reflexivity.
  - change ((replicate (S n) (RunGoroutine j) ++ [EndOnMessage i])%list)
      with (RunGoroutine j
              :: (replicate n (RunGoroutine j) ++ [EndOnMessage i])%list).
    cbn [run]. unfold step at 1. rewrite Hj. cbn [mbind option_bind].
    unfold OnMessage_runs. cbn [mbind option_bind].
    apply (IH s i j a a' r r' Hij Hi Hj).
Qed.

(** C7: whatever the goroutines of earlier deliveries are doing, the
    ranging goroutine takes the next delivery and hands it to a new
    onDelivery goroutine, which starts exactly one OnMessage goroutine
    per loaded action, each with the address of the same copy of the
    delivery, which no step ever overwrites; the ranging goroutine is
    back at its range, ready for the next delivery, before any of them
    has run.  No evaluation holds up another: while the one of an action
    keeps running, for any number of steps, the one of any other action
    can come to its end, and the ranging goroutine stays ready. *)
Theorem dispatch_one_goroutine_per_action s d q :
  loopPc s = LoopRange ->
  pending (msgChannel s) = d :: q ->
  exists s1 s2,
    step RunLoop s = Some s1
    /\ loopPc s1 = LoopRange /\ pending (msgChannel s1) = q
    /\ heap s1 !! length (heap s) = Some d
    /\ pool s1 = (pool s ++ [GOnDelivery (length (heap s)) (cactions s)])%list
    /\ run (replicate (length (cactions s)) (RunGoroutine (length (pool s)))) s1
       = Some s2
    /\ pool s2
       = (pool s ++ GOnDelivery (length (heap s)) []
            :: map (fun a => GOnMessage a (length (heap s))) (cactions s))%list
    /\ loopPc s2 = LoopRange /\ pending (msgChannel s2) = q
    /\ (forall ls s3, run ls s2 = Some s3 -> heap s3 !! length (heap s) = Some d)
    /\ (forall k k' a a' n,
          k <> k' ->
          cactions s !! k = Some a -> cactions s !! k' = Some a' ->
          exists s3,
            run (replicate n (RunGoroutine (S (length (pool s)) + k'))
                   ++ [EndOnMessage (S (length (pool s)) + k)]) s2
            = Some s3
            /\ pool s3 !! (S (length (pool s)) + k)%nat = Some GDone
            /\ pool s3 !! (S (length (pool s)) + k')%nat
               = Some (GOnMessage a' (length (heap s)))
            /\ loopPc s3 = LoopRange /\ pending (msgChannel s3) = q).
Proof.
  intros Hpc Hq.
  set (s1 := setLoop LoopRange {| pending := q; closed := closed (msgChannel s) |}
               (heap s ++ [d])
               (pool s ++ [GOnDelivery (length (heap s)) (cactions s)]) [] s).
  assert (Hstep : step RunLoop s = Some s1).
  { unfold step. rewrite Hpc. unfold recv. rewrite Hq. reflexivity. }
  destruct (onDelivery_spawns (cactions s) s1 (length (pool s)) (length (heap s)))
    as (s2 & Hrun & Hpool & H1 & H2 & H3 & H4).
  { simpl. apply list_lookup_middle. reflexivity. }
  assert (Hpool2 : pool s2
                   = (pool s ++ GOnDelivery (length (heap s)) []
                        :: map (fun a => GOnMessage a (length (heap s)))
                               (cactions s))%list).
  { rewrite Hpool. simpl.
    rewrite insert_app_r_alt by lia.
    rewrite Nat.sub_diag. simpl. rewrite <- app_assoc. reflexivity. }
  assert (Hspawned : forall k a,
            cactions s !! k = Some a ->
            pool s2 !! (S (length (pool s)) + k)%nat
            = Some (GOnMessage a (length (heap s)))).
  { intros k a Hk. rewrite Hpool2.
    rewrite lookup_app_r by lia.
    replace (S (length (pool s)) + k - length (pool s))%nat with (S k) by lia.
    simpl.
    apply (lookup_map_Some (fun a => GOnMessage a (length (heap s)))
             (cactions s) k a Hk). }
  exists s1, s2. split; [exact Hstep|].
  split; [reflexivity|]. split; [reflexivity|].
  split; [simpl; apply list_lookup_middle; reflexivity|].
  split; [reflexivity|]. split; [exact Hrun|].
  split; [exact Hpool2|].
  split; [rewrite H1; reflexivity|]. split; [rewrite H2; reflexivity|].
  split.
  - intros ls s3 Hrun3. apply (run_keeps_heap ls s2 s3 _ _ Hrun3).
    rewrite H3. simpl. apply list_lookup_middle. reflexivity.
  - intros k k' a a' n Hkk Hk Hk'.
    pose proof (Hspawned k a Hk) as Hi.
    pose proof (Hspawned k' a' Hk') as Hj.
    eexists. split.
    + apply (evaluations_do_not_wait n s2 (S (length (pool s)) + k)%nat
               (S (length (pool s)) + k')%nat a a'
               (length (heap s)) (length (heap s)));
        [lia|exact Hi|exact Hj].
    + simpl. split.
      * apply list_lookup_insert_eq. apply (lookup_lt_Some _ _ _ Hi).
      * split; [rewrite list_lookup_insert_ne by lia; exact Hj|].
        split; [rewrite H1; reflexivity|rewrite H2; reflexivity].
Qed.

Lemma dispatch_one_goroutine_per_action_witness :
  exists s1 s2,
    step RunLoop sBusy = Some s1
    /\ loopPc s1 = LoopRange /\ pending (msgChannel s1) = [delivery1]
    /\ heap s1 !! 1%nat = Some delivery2
    /\ pool s1 = (pool sBusy ++ [GOnDelivery 1 (cactions sBusy)])%list
    /\ run (replicate 2 (RunGoroutine 3)) s1 = Some s2
    /\ pool s2
       = (pool sBusy ++ GOnDelivery 1 []
            :: map (fun a => GOnMessage a 1%nat) (cactions sBusy))%list
    /\ loopPc s2 = LoopRange /\ pending (msgChannel s2) = [delivery1]
    /\ (forall ls s3, run ls s2 = Some s3 -> heap s3 !! 1%nat = Some delivery2)
    /\ (forall k k' a a' n,
          k <> k' ->
          cactions sBusy !! k = Some a -> cactions sBusy !! k' = Some a' ->
          exists s3,
            run (replicate n (RunGoroutine (4 + k')) ++ [EndOnMessage (4 + k)]) s2
            = Some s3
            /\ pool s3 !! (4 + k)%nat = Some GDone
            /\ pool s3 !! (4 + k')%nat = Some (GOnMessage a' 1%nat)
            /\ loopPc s3 = LoopRange /\ pending (msgChannel s3) = [delivery1]).
Proof.
  apply (dispatch_one_goroutine_per_action sBusy delivery2 [delivery1]).
  - reflexivity.
  - reflexivity.
Defined.

(** C8: Run never hands an error to its caller.  When connecting fails
    it returns nil; when the consumer cannot be registered it logs the
    error, closes the connection and returns nil; and no execution,
    before or after Run starts to wait, returns anything but nil. *)
Theorem Run_returns_only_nil env st :
  (forall e st1,
     connectAMQP env st = (Ret (Some e), st1) -> Run env st = (Ret None, st1))
  /\ (forall st1 e,
        connectAMQP env st = (Ret None, st1) -> consumeFails env st1 e ->
        Run env st
        = (Ret None,
           {| rtr := rtr st1;
              trace := trace st1 ++
                [consumeEvent st1;
                 Log Error "Error consuming messages: %s" [AStr e]; NetClose] |}))
  /\ (forall r, RunReturns env st r -> r = None).
Proof.
  split; [intros e st1; apply Run_connect_failed|].
  split; [intros st1 e; apply Run_consume_failed|].
  intros r [[st' Hret]|(st1 & ls & s & Hpark & Hrun & Hmain)].
  - destruct (Run_cases env st)
      as [(e & st1 & _ & H)|[(st1 & e & _ & _ & st2 & H)
         |[(st1 & _ & _ & st2 & H)|(msg & st1 & H)]]]; congruence.
  - rewrite (run_from_start st1 ls s Hrun) in Hmain. discriminate.
Qed.

Lemma Run_returns_only_nil_witness :
  Run envNoExchange stUp
    = (Ret None, snd (connectAMQP envNoExchange stUp))
  /\ fst (Run envNoConsume stUp) = Ret None.
Proof.
  destruct (Run_returns_only_nil envNoExchange stUp) as (Hconn & _ & _).
  destruct (Run_returns_only_nil envNoConsume stUp) as (_ & Hcons & _).
  split.
  - apply (Hconn "Exception (404) Reason: NOT_FOUND - no exchange 'pubsub' in vhost '/'").
    vm_compute. reflexivity.
  - rewrite (Hcons (snd (connectAMQP envNoConsume stUp))
               "channel/connection is not open").
    + reflexivity.
    + vm_compute. reflexivity.
    + exists 1%nat. split; vm_compute; reflexivity.
Defined.

(** C2, as the code has it: Run returns, and then nil, only when
    connecting fails or the consumer cannot be registered.  Once it waits
    on [looper] it waits in every state the goroutines can reach; when
    the stream is closed the ranging goroutine works off the pending
    deliveries and ends, and Run still waits. *)
Theorem Run_ends_only_before_consuming env st :
  (forall r, RunReturns env st r ->
     r = None
     /\ ((exists e st1, connectAMQP env st = (Ret (Some e), st1))
         \/ (exists st1 e, connectAMQP env st = (Ret None, st1)
                           /\ consumeFails env st1 e)))
  /\ (forall st1, connectAMQP env st = (Ret None, st1) -> consumeStarts env st1 ->
        exists st2, Run env st = (Parked, st2))
  /\ (forall st2 ls s,
        Run env st = (Parked, st2) -> run ls (startConc st2) = Some s ->
        mainPc s = MainWaitLooper
        /\ (closed (msgChannel s) = true ->
            exists s',
              run (replicate (loopSteps s) RunLoop) s = Some s'
              /\ loopPc s' = LoopDone /\ mainPc s' = MainWaitLooper)).
Proof.
  split; [|split].
  - intros r [[st' Hret]|(st1 & ls & s & Hpark & Hrun & Hmain)].
    + destruct (Run_cases env st)
        as [(e & st1 & Hc & H)|[(st1 & e & Hc & Hf & st2 & H)
           |[(st1 & _ & _ & st2 & H)|(msg & st1 & H)]]]; try congruence.
      * split; [congruence|]. left. eauto.
      * split; [congruence|]. right. eauto.
    + rewrite (run_from_start st1 ls s Hrun) in Hmain. discriminate.
  - intros st1 Hconn Hstarts. eexists.
    apply (Run_consume_started env st st1 Hconn Hstarts).
  - intros st2 ls s Hpark Hrun.
    pose proof (run_from_start st2 ls s Hrun) as Hmain.
    split; [exact Hmain|]. intros Hclosed.
    destruct (loop_terminates s Hclosed) as (s' & Hr & Hdone & Hm).
    exists s'. split; [exact Hr|]. split; [exact Hdone|]. congruence.
Qed.

Lemma Run_ends_only_before_consuming_witness :
  (exists st2, Run envUp stUp = (Parked, st2))
  /\ (forall ls s,
        run ls (startConc (snd (Run envUp stUp))) = Some s ->
        mainPc s = MainWaitLooper).
Proof.
  destruct (Run_ends_only_before_consuming envUp stUp) as (_ & Hstart & Hwait).
  split.
  - apply (Hstart (snd (connectAMQP envUp stUp))).
    + vm_compute. reflexivity.
    + exists 1%nat. split; vm_compute; reflexivity.
  - intros ls s Hrun.
    apply (Hwait (snd (Run envUp stUp)) ls s); [vm_compute; reflexivity|exact Hrun].
Defined.

(** C2, as stated, fails: the broker accepts everything, Run waits, the
    stream is closed, the ranging goroutine ends, and from there no
    schedule makes Run return. *)
Lemma stream_end_does_not_end_Run :
  exists st2 s,
    Run envUp stUp = (Parked, st2)
    /\ run [RunLoop; BrokerClose; RunLoop] (startConc st2) = Some s
    /\ msgChannel s = {| pending := []; closed := true |}
    /\ loopPc s = LoopDone
    /\ forall ls s' r, run ls s = Some s' -> mainPc s' <> MainReturned r.
Proof.
  eexists _, _. split; [vm_compute; reflexivity|].
  split; [vm_compute; reflexivity|].
  split; [reflexivity|]. split; [reflexivity|].
  intros ls s' r Hrun Hret.
  apply run_keeps_main_waiting in Hrun as (_ & Hmain & _); [|reflexivity].
  rewrite Hret in Hmain. discriminate.
Qed.

(** * Further properties *)

(** ** getAction *)

Lemma scanAction_key_panics am : forall actionType params,
  keysAreStrings am = false ->
  exists msg, scanAction am actionType params = Panic msg.
Proof.
  induction am as [|[pkey pval] rest IH]; intros actionType params; simpl.
  - discriminate.
  - intros H. apply andb_false_iff in H.
    destruct pkey; simpl in *; eauto.
    destruct H as [H|H]; [discriminate|].
    destruct (decide (s = "type")); destruct pval; simpl; eauto.
Qed.

Lemma scanAction_returns am : forall actionType params,
  keysAreStrings am = true -> valuesAreStrings am = true ->
  exists r, scanAction am actionType params = Ret r.
Proof.
  induction am as [|[pkey pval] rest IH]; intros actionType params Hk Hv.
  - simpl. eauto.
  - simpl in Hk, Hv. apply andb_true_iff in Hk as [Hk1 Hk].
    apply andb_true_iff in Hv as [Hv1 Hv].
    destruct (assertString_returns _ Hk1) as [s ->].
    destruct (assertString_returns _ Hv1) as [v ->].
    simpl. destruct (decide (s = "type")); simpl; apply IH; assumption.
Qed.

(** X1: getAction returns (with or without a record) exactly when the
    value of the visited key has string-valued "package", "status" and
    "arch" and an "action" mapping whose keys and values are all strings;
    in every other case it panics. *)
Theorem getAction_returns_iff_fullShape key data rest st :
  (exists r st', getAction ((key, data) :: rest) st = (Ret r, st'))
  <-> fullShape data = true.
Proof.
  unfold fullShape. split.
  - intros (r & st' & Hret).
    destruct (shape data) eqn:Hshape.
    + simpl. destruct (keysAreStrings (actionMap data)) eqn:Hkeys; [reflexivity|].
      exfalso. revert Hret. unfold getAction. unfold_monad.
      destruct data as [| | | |l|m]; simpl in *; try discriminate.
      destruct (index m "action") as [| | | |l|am]; simpl in *; try discriminate.
      destruct (scanAction_key_panics am "" ∅ Hkeys) as [msg ->]. discriminate.
    + destruct (getAction_shape_panics key data rest st Hshape) as [msg Hp].
      congruence.
  - intros H. apply andb_true_iff in H as [Hshape Hkeys].
    destruct data as [| | | |l|m]; simpl in Hshape; try discriminate.
    unfold actionMap in Hkeys.
    destruct (index m "action") as [| | | |l|am] eqn:Hact;
      try (rewrite !andb_false_r in Hshape; discriminate).
    apply andb_true_iff in Hshape as [Hshape Hvals].
    apply andb_true_iff in Hshape as [Hshape Harch].
    apply andb_true_iff in Hshape as [Hpkg Hstatus].
    destruct (assertString_returns _ Hpkg) as [pkg Epkg].
    destruct (assertString_returns _ Hstatus) as [status Estatus].
    destruct (assertString_returns _ Harch) as [arch Earch].
    destruct (scanAction_returns am "" ∅ Hkeys Hvals) as [[t params] Hscan].
    unfold getAction. unfold_monad. simpl.
    rewrite Hact. simpl. rewrite Hscan. simpl.
    rewrite Epkg, Estatus, Earch. simpl.
    destruct (decide (t = "")); eauto.
Qed.

Lemma getAction_of_scan key m am t params pkg status arch rest st :
  index m "action" = IMap am ->
  scanAction am "" ∅ = Ret (t, params) ->
  index m "package" = IString pkg ->
  index m "status" = IString status ->
  index m "arch" = IString arch ->
  getAction ((key, IMap m) :: rest) st
  = if decide (t = "") then
      (Ret None,
       {| rtr := rtr st; trace := trace st ++ [warnRecord key pkg] |})
    else
      (Ret (Some {| Project := key; Package := pkg; Status := status;
                    Architecture := arch; Params := params; Type_ := t |}), st).
Proof.
  intros Hact Hscan Hpkg Hstatus Harch.
  unfold getAction. unfold_monad. simpl.
  rewrite Hact. simpl. rewrite Hscan. simpl.
  rewrite Hpkg, Hstatus, Harch. simpl.
  destruct (decide (t = "")); reflexivity.
Qed.

(** The parameters collected by the loop over the action definition, by
    lookup. *)
Lemma scanAction_params am : forall actionType params,
  keysAreStrings am = true -> valuesAreStrings am = true ->
  NoDup (keysOf am) ->
  exists params',
    scanAction am actionType params
    = Ret (match index am "type" with IString s => s | _ => actionType end,
           params')
    /\ forall k,
         params' !! k
         = if decide (k = "type") then params !! k
           else match index am k with
                | IString v => Some v
                | _ => params !! k
                end.
Proof.
  induction am as [|[pkey pval] rest IH]; intros actionType params Hk Hv Hnd.
  - simpl. exists params. split; [reflexivity|].
    intros k. destruct (decide (k = "type")); reflexivity.
  - simpl in Hk, Hv. apply andb_true_iff in Hk as [Hk1 Hk].
    apply andb_true_iff in Hv as [Hv1 Hv].
    destruct (assertString_returns _ Hk1) as [s ->].
    destruct (assertString_returns _ Hv1) as [v ->].
    unfold keysOf in Hnd. simpl in Hnd. apply NoDup_cons in Hnd as [Hnotin Hnd].
    simpl. destruct (decide (s = "type")) as [->|Hne]; simpl.
    + destruct (IH v params Hk Hv Hnd) as (p' & Hp' & Hlook). rewrite Hp'.
      rewrite (index_absent rest "type" Hnotin).
      exists p'. split; [reflexivity|].
      intros k. rewrite Hlook. destruct (decide (k = "type")) as [->|Hk']; [reflexivity|].
      rewrite bool_decide_eq_false_2 by congruence. reflexivity.
    + rewrite bool_decide_eq_false_2 by exact Hne.
      destruct (IH actionType (<[s := v]> params) Hk Hv Hnd) as (p' & Hp' & Hlook).
      rewrite Hp'. exists p'. split; [reflexivity|].
      intros k. rewrite Hlook. destruct (decide (k = "type")) as [->|Hk'].
      * apply lookup_insert_ne. exact Hne.
      * destruct (decide (s = k)) as [->|Hsk].
        -- rewrite bool_decide_eq_true_2 by reflexivity.
           rewrite (index_absent rest k Hnotin). apply lookup_insert_eq.
        -- rewrite bool_decide_eq_false_2 by exact Hsk.
           destruct (index rest k); try reflexivity;
             apply lookup_insert_ne; exact Hsk.
Qed.

Lemma wellShaped_inv data :
  wellShaped data ->
  exists m am pkg status arch,
    data = IMap m /\ index m "action" = IMap am
    /\ index m "package" = IString pkg /\ index m "status" = IString status
    /\ index m "arch" = IString arch
    /\ keysAreStrings am = true /\ valuesAreStrings am = true
    /\ NoDup (keysOf am).
Proof.
  intros (Hshape & Hkeys & Hnd).
  destruct data as [| | | |l|m]; simpl in Hshape; try discriminate.
  unfold actionMap in *.
  destruct (index m "action") as [| | | |l|am] eqn:Hact;
    try (rewrite !andb_false_r in Hshape; discriminate).
  apply andb_true_iff in Hshape as [Hshape Hvals].
  apply andb_true_iff in Hshape as [Hshape Harch].
  apply andb_true_iff in Hshape as [Hpkg Hstatus].
  destruct (assertString_returns _ Hpkg) as [pkg Epkg].
  destruct (assertString_returns _ Hstatus) as [status Estatus].
  destruct (assertString_returns _ Harch) as [arch Earch].
  exists m, am, pkg, status, arch. repeat split; assumption.
Qed.

(** X2: for a well-shaped entry with a type, the ActionInfo returned by
    getAction carries that type and, as its parameters, exactly the other
    pairs of the action definition: "type" itself is not a parameter. *)
Theorem getAction_params key data rest st :
  wellShaped data -> typeOf data <> "" ->
  exists action,
    getAction ((key, data) :: rest) st = (Ret (Some action), st)
    /\ Type_ action = typeOf data
    /\ forall k,
         Params action !! k
         = if decide (k = "type") then None
           else paramLookup (actionMap data) k.
Proof.
  intros Hws Htype.
  destruct (wellShaped_inv data Hws)
    as (m & am & pkg & status & arch & -> & Hact & Hpkg & Hstatus & Harch
        & Hkeys & Hvals & Hnd).
  destruct (scanAction_params am "" ∅ Hkeys Hvals Hnd) as (params & Hscan & Hlook).
  assert (Ht : match index am "type" with IString s => s | _ => "" end
               = typeOf (IMap m)).
  { unfold typeOf, actionMap. rewrite Hact. destruct (index am "type"); reflexivity. }
  rewrite Ht in Hscan.
  rewrite (getAction_of_scan key m am _ params pkg status arch rest st
             Hact Hscan Hpkg Hstatus Harch).
  rewrite decide_False by exact Htype.
  eexists. split; [reflexivity|]. split; [reflexivity|].
  intros k. simpl. rewrite Hlook. unfold paramLookup, actionMap. rewrite Hact.
  destruct (decide (k = "type")); [apply lookup_empty|].
  destruct (index am k); try reflexivity; apply lookup_empty.
Qed.

Lemma getAction_params_witness :
  exists action,
    getAction [("proj1", dataShell)] st0 = (Ret (Some action), st0)
    /\ Type_ action = "shell"
    /\ forall k,
         Params action !! k
         = if decide (k = "type") then None
           else paramLookup (actionMap dataShell) k.
Proof.
  apply (getAction_params "proj1" dataShell [] st0).
  - exact dataShell_wellShaped.
  - discriminate.
Defined.

(** Indexing a mapping with distinct keys does not depend on the order
    of its pairs. *)
Lemma index_Permutation am am' k :
  am ≡ₚ am' -> NoDup (keysOf am) -> index am k = index am' k.
Proof.
  induction 1 as [|[k1 v1] l l' Hperm IH|[k1 v1] [k2 v2] l|l l' l'' H1 IH1 H2 IH2];
    intros Hnd.
  - reflexivity.
  - simpl. destruct (isKey k k1); [reflexivity|].
    apply IH. unfold keysOf in *. simpl in Hnd.
    destruct (keyString k1); [apply NoDup_cons in Hnd as [_ Hnd]|]; exact Hnd.
  - simpl. destruct (isKey k k2) eqn:E2, (isKey k k1) eqn:E1; try reflexivity.
    exfalso. destruct k1 as [| | |s1| |], k2 as [| | |s2| |]; simpl in *;
      try discriminate.
    apply bool_decide_eq_true_1 in E1. apply bool_decide_eq_true_1 in E2.
    subst. unfold keysOf in Hnd. simpl in Hnd.
    apply NoDup_cons in Hnd as [Hnotin _]. apply Hnotin. left.
  - rewrite IH1 by exact Hnd. apply IH2.
    unfold keysOf in *. rewrite <- H1. exact Hnd.
Qed.

Lemma forallb_Permutation {A} (f : A -> bool) (l l' : list A) :
  l ≡ₚ l' -> forallb f l = true -> forallb f l' = true.
Proof.
  intros Hperm H. apply forallb_forall. intros x Hx.
  rewrite forallb_forall in H. apply H.
  apply list_elem_of_In. rewrite Hperm. apply list_elem_of_In. exact Hx.
Qed.

Lemma scanAction_Permutation am am' actionType params :
  keysAreStrings am = true -> valuesAreStrings am = true ->
  NoDup (keysOf am) -> am ≡ₚ am' ->
  scanAction am' actionType params = scanAction am actionType params.
Proof.
  intros Hk Hv Hnd Hperm.
  assert (Hk' : keysAreStrings am' = true)
    by (apply (forallb_Permutation _ am am' Hperm Hk)).
  assert (Hv' : valuesAreStrings am' = true)
    by (apply (forallb_Permutation _ am am' Hperm Hv)).
  assert (Hnd' : NoDup (keysOf am')) by (unfold keysOf in *; rewrite <- Hperm; exact Hnd).
  destruct (scanAction_params am actionType params Hk Hv Hnd) as (p & -> & Hp).
  destruct (scanAction_params am' actionType params Hk' Hv' Hnd') as (p' & -> & Hp').
  rewrite <- (index_Permutation am am' "type" Hperm Hnd).
  f_equal. f_equal. apply map_eq. intros k. rewrite Hp, Hp'.
  rewrite <- (index_Permutation am am' k Hperm Hnd). reflexivity.
Qed.

(** X3: the order in which [range] visits a map does not matter for a
    well-shaped value: if another value has the same "package", "status"
    and "arch" and an action definition with the same pairs in another
    order, getAction gives the same result. *)
Theorem getAction_iteration_order key m m' am am' rest st :
  wellShaped (IMap m) ->
  index m "action" = IMap am -> index m' "action" = IMap am' ->
  am ≡ₚ am' ->
  index m' "package" = index m "package" ->
  index m' "status" = index m "status" ->
  index m' "arch" = index m "arch" ->
  getAction ((key, IMap m') :: rest) st = getAction ((key, IMap m) :: rest) st.
Proof.
  intros Hws Hact Hact' Hperm Hpkg Hstatus Harch.
  destruct Hws as (Hshape & Hkeys & Hnd).
  simpl in Hshape. unfold actionMap in Hkeys, Hnd. rewrite Hact in *.
  apply andb_true_iff in Hshape as [_ Hvals].
  unfold getAction. unfold_monad. simpl.
  rewrite Hact, Hact', Hpkg, Hstatus, Harch. simpl.
  rewrite (scanAction_Permutation am am' "" ∅ Hkeys Hvals Hnd Hperm).
  reflexivity.
Qed.

(** A permuted mapping with distinct keys qualifies. *)
Lemma getAction_iteration_order_witness :
  getAction [("proj1", dataShellReordered)] st0
  = getAction [("proj1", dataShell)] st0.
Proof.
  apply (getAction_iteration_order "proj1" _ _
           [(IString "type", IString "shell"); (IString "cmd", IString "notify.sh")]
           [(IString "cmd", IString "notify.sh"); (IString "type", IString "shell")]).
  - exact dataShell_wellShaped.
  - reflexivity.
  - reflexivity.
  - apply perm_swap.
  - reflexivity.
  - reflexivity.
  - reflexivity.
Defined.

Ltac footprint_leaf :=
  simpl;
  split; [eauto|];
  split; [reflexivity|];
  first [left; reflexivity | right; eexists _, _; reflexivity].

(** X4: whatever the entry, getAction returns or panics, leaves the
    reactor as it is and logs nothing but, at most, the one warning about
    a missing type. *)
Theorem getAction_footprint actionSet st :
  ((exists r, fst (getAction actionSet st) = Ret r)
   \/ (exists msg, fst (getAction actionSet st) = Panic msg))
  /\ rtr (snd (getAction actionSet st)) = rtr st
  /\ (trace (snd (getAction actionSet st)) = trace st
      \/ exists key package,
           trace (snd (getAction actionSet st))
           = (trace st ++ [warnRecord key package])%list).
Proof.
  destruct actionSet as [|[key data] rest]; [footprint_leaf|].
  unfold getAction. unfold_monad.
  destruct data as [| | | |l|m]; try footprint_leaf.
  simpl. destruct (index m "action") as [| | | |l|am]; try footprint_leaf.
  simpl.
  destruct (scanAction_ret_or_panic am "" ∅) as [[[t p] ->]|[msg ->]];
    [|footprint_leaf].
  simpl. destruct (index m "package"); try footprint_leaf.
  simpl. destruct (index m "status"); try footprint_leaf.
  simpl. destruct (index m "arch"); try footprint_leaf.
  simpl. destruct (decide (t = "")); footprint_leaf.
Qed.

(** ** LoadActions *)

(** X5: a well-shaped entry whose type is neither empty nor one of the
    two known ones loads nothing: one Error record is logged, the counter
    and the reactor stay as they are, and the loop goes on with the
    entries after it. *)
Theorem unknown_type_is_skipped key data rest others loaded st :
  wellShaped data -> typeOf data <> "" -> recognized (typeOf data) = false ->
  loadOne ((key, data) :: rest) loaded st = (Ret loaded, unknownLogged key data st)
  /\ loadLoop (((key, data) :: rest) :: others) loaded st
     = loadLoop others loaded (unknownLogged key data st).
Proof.
  intros Hws Htyped Hunknown.
  assert (Hone : loadOne ((key, data) :: rest) loaded st
                 = (Ret loaded, unknownLogged key data st)).
  { destruct (getAction_wellShaped key data rest st Hws) as [params Hget].
    rewrite decide_False in Hget by exact Htyped.
    unfold recognized in Hunknown. apply orb_false_iff in Hunknown as [Hci Hsh].
    apply bool_decide_eq_false_1 in Hci. apply bool_decide_eq_false_1 in Hsh.
    unfold loadOne. unfold_monad. rewrite Hget. simpl.
    unfold ACTION_TYPE_CI, ACTION_TYPE_SHELL.
    rewrite decide_False by exact Hci. rewrite decide_False by exact Hsh.
    reflexivity. }
  split; [exact Hone|].
  simpl. unfold_monad. rewrite Hone. reflexivity.
Qed.

Lemma unknown_type_is_skipped_witness :
  loadOne [("proj4", dataMail)] 0 st0 = (Ret 0, unknownLogged "proj4" dataMail st0)
  /\ loadLoop [[("proj4", dataMail)]; [("proj1", dataShell)]] 0 st0
     = loadLoop [[("proj1", dataShell)]] 0 (unknownLogged "proj4" dataMail st0).
Proof.
  apply (unknown_type_is_skipped "proj4" dataMail [] [[("proj1", dataShell)]] 0 st0).
  - split; [reflexivity|]. split; [reflexivity|].
    apply (bool_decide_unpack _). vm_compute. exact I.
  - discriminate.
  - reflexivity.
Defined.

(** X6: when the file cannot be read LoadActions logs the error and
    stops the process with exit code 1; the decoder is not called and the
    reactor is not touched. *)
Theorem LoadActions_unreadable_file env path content e st :
  ioutil_ReadFile env path = (content, Some e) ->
  LoadActions env path st
  = (Exit 1,
     {| rtr := rtr st;
        trace := trace st ++
          [FileRead path; Log Error "Unable to load actions: %s" [AStr e]] |}).
Proof.
  intros Hread. unfold LoadActions, os_Exit. unfold_monad. simpl.
  rewrite Hread. simpl. rewrite <- !app_assoc. reflexivity.
Qed.

Lemma LoadActions_unreadable_file_witness :
  LoadActions envDown "actions.conf" st0
  = (Exit 1,
     {| rtr := NewReactor;
        trace := [FileRead "actions.conf";
                  Log Error "Unable to load actions: %s"
                      [AStr "open: no such file or directory"]] |}).
Proof.
  apply (LoadActions_unreadable_file envDown "actions.conf" ""
           "open: no such file or directory" st0).
  reflexivity.
Defined.

Lemma loadOne_summary key data rest loaded st :
  wellShaped data ->
  exists n st' new,
    loadOne ((key, data) :: rest) loaded st = (Ret n, st')
    /\ actions (rtr st') = (actions (rtr st) ++ new)%list
    /\ map summary new
       = match entrySummary ((key, data) :: rest) with
         | Some x => [x]
         | None => []
         end.
Proof.
  intros Hws.
  destruct (getAction_wellShaped key data rest st Hws) as [params Hget].
  unfold loadOne. unfold_monad. rewrite Hget. unfold entrySummary.
  destruct (decide (typeOf data = "")) as [Hempty|Htyped].
  - rewrite Hempty. simpl. exists loaded, (warned key data st), [].
    rewrite app_nil_r. repeat split.
  - simpl. unfold ACTION_TYPE_CI, ACTION_TYPE_SHELL, getRtr, setRtr.
    destruct (decide (typeOf data = "ci-call")) as [Hci|Hci]; simpl.
    + eexists _, _, [_]. split; [reflexivity|]. split; reflexivity.
    + destruct (decide (typeOf data = "shell")) as [Hsh|Hsh]; simpl.
      * eexists _, _, [_]. split; [reflexivity|]. split; reflexivity.
      * eexists _, _, []. split; [reflexivity|]. rewrite app_nil_r.
        split; reflexivity.
Qed.

Lemma loadLoop_summary doc : forall loaded st,
  Forall validEntry doc ->
  exists n st' new,
    loadLoop doc loaded st = (Ret n, st')
    /\ actions (rtr st') = (actions (rtr st) ++ new)%list
    /\ map summary new = omap entrySummary doc.
Proof.
  induction doc as [|e doc IH]; intros loaded st Hvalid.
  - exists loaded, st, []. rewrite app_nil_r. repeat split.
  - apply Forall_cons in Hvalid as [(key & data & -> & Hws) Hvalid].
    destruct (loadOne_summary key data [] loaded st Hws)
      as (n1 & st1 & new1 & H1 & A1 & S1).
    destruct (IH n1 st1 Hvalid) as (n2 & st2 & new2 & H2 & A2 & S2).
    exists n2, st2, (new1 ++ new2)%list.
    simpl loadLoop. unfold_monad. rewrite H1. unfold_monad.
    split; [exact H2|]. split; [rewrite A2, A1, app_assoc; reflexivity|].
    rewrite map_app, S1, S2. cbn [omap list_omap].
    destruct (entrySummary [(key, data)]); reflexivity.
Qed.

(** X7: for a document that is read and decoded without error and whose
    entries are single-project and well shaped, LoadActions keeps the
    actions the reactor already has and appends the new ones in document
    order: an HTTP action for each "ci-call" entry, a shell action for
    each "shell" entry, each bound to the project, package, status and
    architecture of its entry. *)
Theorem LoadActions_in_document_order env path content doc st :
  ioutil_ReadFile env path = (content, None) ->
  yaml_Unmarshal env content = (doc, None) ->
  Forall validEntry doc ->
  exists st' new,
    LoadActions env path st = (Ret tt, st')
    /\ actions (rtr st') = (actions (rtr st) ++ new)%list
    /\ map summary new = omap entrySummary doc.
Proof.
  intros Hread Hyaml Hvalid.
  destruct (loadLoop_summary doc 0
              {| rtr := rtr st;
                 trace := (trace st ++ [FileRead path]) ++ [YamlUnmarshal content] |}
              Hvalid) as (n & st1 & new & Hloop & Hact & Hsum).
  unfold LoadActions. unfold_monad. simpl. rewrite Hread. simpl.
  rewrite Hyaml. simpl. rewrite Hloop. simpl.
  eexists _, new. split; [reflexivity|]. simpl. split; assumption.
Qed.

Lemma LoadActions_in_document_order_witness :
  exists st' new,
    LoadActions envThree "actions.conf" st0 = (Ret tt, st')
    /\ actions (rtr st') = new
    /\ map summary new
       = [(ShellKind, "proj1", "pkgA", "ok", "x86_64", "shell");
          (ShellKind, "proj3", "pkgA", "ok", "x86_64", "shell")].
Proof.
  apply (LoadActions_in_document_order envThree "actions.conf" "- proj1: ..."
           [[("proj1", dataShell)]; [("proj2", dataUntyped)]; [("proj3", dataShell)]]
           st0).
  - reflexivity.
  - reflexivity.
  - repeat constructor.
    + exists "proj1", dataShell. split; [reflexivity|exact dataShell_wellShaped].
    + exists "proj2", dataUntyped. split; [reflexivity|exact dataUntyped_wellShaped].
    + exists "proj3", dataShell. split; [reflexivity|exact dataShell_wellShaped].
Defined.

Lemma sameSession_refl r : sameSession r r.
Proof. repeat split. Qed.

Lemma sameSession_trans r1 r2 r3 :
  sameSession r1 r2 -> sameSession r2 r3 -> sameSession r1 r3.
Proof.
  unfold sameSession. intros (?&?&?&?&?&?&?) (?&?&?&?&?&?&?).
  repeat split; congruence.
Qed.

Lemma getAction_keeps_rtr actionSet st :
  rtr (snd (getAction actionSet st)) = rtr st.
Proof.
  destruct actionSet as [|[key data] rest]; [reflexivity|].
  unfold getAction. unfold_monad.
  destruct data as [| | | |l|m]; try reflexivity.
  simpl. destruct (index m "action") as [| | | |l|am]; try reflexivity.
  simpl.
  destruct (scanAction_ret_or_panic am "" ∅) as [[[t p] ->]|[msg ->]];
    [|reflexivity].
  simpl. destruct (index m "package"); try reflexivity.
  simpl. destruct (index m "status"); try reflexivity.
  simpl. destruct (index m "arch"); try reflexivity.
  simpl. destruct (decide (t = "")); reflexivity.
Qed.

Lemma loadOne_appends actionSet loaded st :
  exists new,
    actions (rtr (snd (loadOne actionSet loaded st)))
    = (actions (rtr st) ++ new)%list
    /\ (length new <= 1)%nat
    /\ sameSession (rtr st) (rtr (snd (loadOne actionSet loaded st))).
Proof.
  pose proof (getAction_keeps_rtr actionSet st) as Hrtr.
  unfold loadOne. unfold_monad.
  destruct (getAction actionSet st) as [o st1]. simpl in *.
  assert (Hnone : exists new,
            actions (rtr st1) = (actions (rtr st) ++ new)%list
            /\ (length new <= 1)%nat /\ sameSession (rtr st) (rtr st1)).
  { exists []. rewrite app_nil_r, Hrtr. split; [reflexivity|].
    split; [simpl; lia|apply sameSession_refl]. }
  destruct o as [[action|]|msg|c|]; simpl; try exact Hnone.
  unfold getRtr, setRtr.
  destruct (decide (Type_ action = ACTION_TYPE_CI)); simpl;
    [|destruct (decide (Type_ action = ACTION_TYPE_SHELL)); simpl];
    try exact Hnone; rewrite Hrtr;
    (eexists [_]; split; [reflexivity|split; [simpl; lia|repeat split]]).
Qed.

Lemma loadLoop_appends data : forall loaded st,
  exists new,
    actions (rtr (snd (loadLoop data loaded st)))
    = (actions (rtr st) ++ new)%list
    /\ (length new <= length data)%nat
    /\ sameSession (rtr st) (rtr (snd (loadLoop data loaded st))).
Proof.
  induction data as [|e data IH]; intros loaded st.
  - exists []. rewrite app_nil_r. simpl.
    split; [reflexivity|]. split; [simpl; lia|apply sameSession_refl].
  - destruct (loadOne_appends e loaded st) as (new1 & A1 & L1 & S1).
    simpl loadLoop. unfold_monad.
    destruct (loadOne e loaded st) as [o st1]. simpl in *.
    destruct o as [n|msg|c|]; simpl;
      try (exists new1; split; [exact A1|split; [lia|exact S1]]).
    destruct (IH n st1) as (new2 & A2 & L2 & S2).
    exists (new1 ++ new2)%list. rewrite A2, A1, app_assoc, length_app.
    split; [reflexivity|]. split; [lia|].
    apply (sameSession_trans _ _ _ S1 S2).
Qed.

(** X8: whatever the file and the decoder answer, and however
    LoadActions ends (return, exit or panic), it only appends to the
    actions of the reactor, at most one action per decoded entry, and it
    leaves the connection, the queue and the credentials alone. *)
Theorem LoadActions_only_appends env path st :
  exists new,
    actions (rtr (snd (LoadActions env path st)))
    = (actions (rtr st) ++ new)%list
    /\ (length new
        <= length (fst (yaml_Unmarshal env (fst (ioutil_ReadFile env path)))))%nat
    /\ sameSession (rtr st) (rtr (snd (LoadActions env path st))).
Proof.
  unfold LoadActions, os_Exit. unfold_monad. simpl.
  destruct (ioutil_ReadFile env path) as [content [e|]]; simpl.
  - exists []. rewrite app_nil_r. split; [reflexivity|].
    split; [simpl; lia|apply sameSession_refl].
  - destruct (yaml_Unmarshal env content) as [data err]. simpl.
    destruct err as [e|]; simpl;
      match goal with
      | |- context [loadLoop data 0 ?st1] =>
          destruct (loadLoop_appends data 0 st1) as (new & A & L & S);
          destruct (loadLoop data 0 st1) as [o st2]
      end;
      simpl in *; exists new; destruct o; simpl; auto.
Qed.

Lemma getAction_commutes actionSet : commutes (getAction actionSet).
Proof.
  intros u p f n st.
  destruct actionSet as [|[key data] rest]; [reflexivity|].
  unfold getAction. unfold_monad.
  destruct data as [| | | |l|m]; try reflexivity.
  simpl. destruct (index m "action") as [| | | |l|am]; try reflexivity.
  simpl.
  destruct (scanAction_ret_or_panic am "" ∅) as [[[t ps] ->]|[msg ->]];
    [|reflexivity].
  simpl. destruct (index m "package"); try reflexivity.
  simpl. destruct (index m "status"); try reflexivity.
  simpl. destruct (index m "arch"); try reflexivity.
  simpl. destruct (decide (t = "")); reflexivity.
Qed.

Lemma loadOne_commutes actionSet loaded : commutes (loadOne actionSet loaded).
Proof.
  intros u p f n st. unfold loadOne. unfold_monad.
  rewrite (getAction_commutes actionSet u p f n st).
  destruct (getAction actionSet st) as [o st1]. simpl.
  destruct o as [[action|]|msg|c|]; try reflexivity.
  unfold getRtr, setRtr.
  destruct (decide (Type_ action = ACTION_TYPE_CI)); simpl;
    [|destruct (decide (Type_ action = ACTION_TYPE_SHELL)); simpl];
    reflexivity.
Qed.

Lemma loadLoop_commutes data : forall loaded, commutes (loadLoop data loaded).
Proof.
  induction data as [|e data IH]; intros loaded u p f n st; [reflexivity|].
  simpl loadLoop. unfold_monad.
  rewrite (loadOne_commutes e loaded u p f n st).
  destruct (loadOne e loaded st) as [o st1]. simpl.
  destruct o as [n1|msg|c|]; try reflexivity.
  apply IH.
Qed.

(** X9: LoadActions neither reads nor writes the credentials, so the two
    configuration steps can be taken in either order: loading after
    SetAMQPDial gives the outcome and the state of loading first and
    setting the credentials afterwards. *)
Theorem LoadActions_SetAMQPDial_commute env path u p f n st :
  LoadActions env path (withDial u p f n st)
  = (fst (LoadActions env path st),
     withDial u p f n (snd (LoadActions env path st))).
Proof.
  unfold LoadActions, os_Exit. unfold_monad. simpl.
  destruct (ioutil_ReadFile env path) as [content [e|]]; simpl; [reflexivity|].
  destruct (yaml_Unmarshal env content) as [data err].
  destruct err as [e|]; simpl.
  - pose proof (loadLoop_commutes data 0 u p f n
                  {| rtr := rtr st;
                     trace := ((trace st ++ [FileRead path])
                                 ++ [YamlUnmarshal content])
                                ++ [Log Error "Unable to read actions configuration: %s"
                                        [AStr e]] |}) as H.
    unfold withDial at 1 in H. simpl in H. rewrite H. clear H.
    destruct (loadLoop data 0 _) as [o st2]. destruct o; reflexivity.
  - pose proof (loadLoop_commutes data 0 u p f n
                  {| rtr := rtr st;
                     trace := (trace st ++ [FileRead path])
                                ++ [YamlUnmarshal content] |}) as H.
    unfold withDial at 1 in H. simpl in H. rewrite H. clear H.
    destruct (loadLoop data 0 _) as [o st2]. destruct o; reflexivity.
Qed.

(** ** connectAMQP *)

Ltac unfold_connect :=
  unfold connectAMQP, getRtr, setConn, setChannel, setQueue, getRtr, setRtr,
    deref, nilDeref;
  unfold_monad.

Lemma connectAMQP_up env st c ch q :
  sessionUp env (rtr st) c ch q ->
  connectAMQP env st
  = (Ret None,
     {| rtr := connected (rtr st) c ch q;
        trace := trace st ++ setupTrace (rtr st) q |}).
Proof.
  intros (Hu & Hf & Hdial & Hchan & Hex & Hq & Hb).
  unfold_connect. rewrite decide_False by tauto. simpl.
  rewrite Hdial. simpl.
  destruct (conn_Channel env c) as [ch' cherr]. simpl in Hchan. subst ch'.
  simpl. rewrite Hex. simpl. rewrite Hq. simpl. rewrite Hb. simpl.
  rewrite <- !app_assoc. reflexivity.
Qed.

Lemma connectAMQP_up_inv env st st1 :
  connectAMQP env st = (Ret None, st1) ->
  exists c ch q, sessionUp env (rtr st) c ch q.
Proof.
  unfold sessionUp. unfold_connect.
  destruct (decide (user (rtr st) = "" \/ fqdn (rtr st) = "")) as [|Hcred];
    simpl; [discriminate|].
  destruct (amqp_Dial env (connstrOf (rtr st))) as [[c|] [e|]] eqn:Hdial;
    simpl; try discriminate.
  destruct (conn_Channel env c) as [[ch|] cherr] eqn:Hchan; simpl;
    try discriminate.
  destruct (ch_ExchangeDeclarePassive env ch "pubsub" "topic" true false false false)
    eqn:Hex; simpl; try discriminate.
  destruct (ch_QueueDeclare env ch "" false false true false) as [q [e|]] eqn:Hq;
    simpl; try discriminate.
  destruct (ch_QueueBind env ch (Name q) "#" "pubsub" false) eqn:Hb;
    simpl; try discriminate.
  intros _. exists c, ch, q. rewrite Hchan. simpl.
  repeat split; try assumption; tauto.
Qed.

(** X10: connectAMQP returns nil exactly when the credentials are there
    and Dial, Channel (which must hand out a channel; its error is not
    looked at), ExchangeDeclarePassive, QueueDeclare and QueueBind all
    succeed; it then leaves the connection, the channel and the queue in
    the reactor, having made these five calls once each, in this order. *)
Theorem connectAMQP_succeeds_iff env st :
  (forall c ch q,
     sessionUp env (rtr st) c ch q ->
     connectAMQP env st
     = (Ret None,
        {| rtr := connected (rtr st) c ch q;
           trace := trace st ++ setupTrace (rtr st) q |}))
  /\ (forall st1,
        connectAMQP env st = (Ret None, st1) ->
        exists c ch q, sessionUp env (rtr st) c ch q).
Proof.
  split.
  - intros c ch q. apply connectAMQP_up.
  - intros st1. apply connectAMQP_up_inv.
Qed.

Lemma connectAMQP_succeeds_iff_witness :
  connectAMQP envUp stUp
  = (Ret None,
     {| rtr := connected (rtr stUp) 1%nat 1%nat {| Name := "amq.gen-Xa2" |};
        trace := setupTrace (rtr stUp) {| Name := "amq.gen-Xa2" |} |})
  /\ exists c ch q, sessionUp envUp (rtr stUp) c ch q.
Proof.
  destruct (connectAMQP_succeeds_iff envUp stUp) as [Hup Hconv].
  assert (H : sessionUp envUp (rtr stUp) 1%nat 1%nat {| Name := "amq.gen-Xa2" |}).
  { repeat split; try discriminate. }
  split.
  - apply (Hup _ _ _ H).
  - apply (Hconv _ (Hup _ _ _ H)).
Defined.

(** X11: the error of Channel() is never reported.  When the connection
    is open but Channel hands out no channel, connectAMQP does not return
    an error: the call made through the nil channel panics, after the
    dial and before any declaration, with the connection still held by
    the reactor, and Run panics with it without closing the connection. *)
Theorem connectAMQP_channel_failure_panics env st c :
  user (rtr st) <> "" -> fqdn (rtr st) <> "" ->
  amqp_Dial env (connstrOf (rtr st)) = (Some c, None) ->
  fst (conn_Channel env c) = None ->
  exists msg st1,
    connectAMQP env st = (Panic msg, st1)
    /\ Run env st = (Panic msg, st1)
    /\ conn (rtr st1) = Some c /\ channel (rtr st1) = None
    /\ trace st1
       = (trace st ++
           [NetDial (connstrOf (rtr st));
            Log Info "Connected to AMQP at %s" [AStr (fqdn (rtr st))];
            NetChannel])%list.
Proof.
  intros Hu Hf Hdial Hchan.
  assert (Hc : exists msg st1,
             connectAMQP env st = (Panic msg, st1)
             /\ conn (rtr st1) = Some c /\ channel (rtr st1) = None
             /\ trace st1
                = (trace st ++
                    [NetDial (connstrOf (rtr st));
                     Log Info "Connected to AMQP at %s" [AStr (fqdn (rtr st))];
                     NetChannel])%list).
  { unfold_connect. rewrite decide_False by tauto. simpl.
    rewrite Hdial. simpl.
    destruct (conn_Channel env c) as [ch cherr]. simpl in Hchan. subst ch.
    simpl. eexists _, _. split; [reflexivity|]. simpl.
    rewrite <- !app_assoc. auto. }
  destruct Hc as (msg & st1 & Hconn & H1 & H2 & H3).
  exists msg, st1. split; [exact Hconn|].
  split; [apply Run_connect_panicked; exact Hconn|auto].
Qed.

Lemma connectAMQP_channel_failure_panics_witness :
  exists msg st1,
    connectAMQP envNoChannel stUp = (Panic msg, st1)
    /\ Run envNoChannel stUp = (Panic msg, st1)
    /\ conn (rtr st1) = Some 1%nat /\ channel (rtr st1) = None
    /\ trace st1
       = (trace stUp ++
           [NetDial (connstrOf (rtr stUp));
            Log Info "Connected to AMQP at %s" [AStr (fqdn (rtr stUp))];
            NetChannel])%list.
Proof.
  apply (connectAMQP_channel_failure_panics envNoChannel stUp 1%nat).
  - discriminate.
  - discriminate.
  - reflexivity.
  - reflexivity.
Defined.

Ltac connect_leaf :=
  simpl; eexists;
  split; [rewrite <- ?app_assoc; reflexivity|];
  split; [reflexivity|];
  repeat split.

(** X12: however connectAMQP ends, it leaves the actions and the
    credentials of the reactor as they are, and what it adds to the trace
    holds neither a Consume nor a Close call. *)
Theorem connectAMQP_footprint env st :
  exists added,
    trace (snd (connectAMQP env st)) = (trace st ++ added)%list
    /\ forallb (fun ev => negb (isConsume ev) && negb (isClose ev)) added = true
    /\ sameConfig (rtr st) (rtr (snd (connectAMQP env st))).
Proof.
  unfold sameConfig. unfold_connect.
  destruct (decide (user (rtr st) = "" \/ fqdn (rtr st) = "")); [connect_leaf|].
  simpl. destruct (amqp_Dial env (connstrOf (rtr st))) as [c [e|]];
    [connect_leaf|].
  simpl. destruct c as [c|]; [|connect_leaf].
  simpl. destruct (conn_Channel env c) as [[ch|] cherr]; [|connect_leaf].
  simpl.
  destruct (ch_ExchangeDeclarePassive env ch "pubsub" "topic" true false false false);
    [connect_leaf|].
  simpl. destruct (ch_QueueDeclare env ch "" false false true false) as [q [e|]];
    [connect_leaf|].
  simpl. destruct (ch_QueueBind env ch (Name q) "#" "pubsub" false); connect_leaf.
Qed.

Ltac closes_leaf :=
  simpl; unfold closes; rewrite ?List.filter_app; simpl;
  rewrite ?app_nil_r; reflexivity.

Lemma connectAMQP_never_closes env st :
  closes (trace (snd (connectAMQP env st))) = closes (trace st).
Proof.
  unfold_connect.
  destruct (decide (user (rtr st) = "" \/ fqdn (rtr st) = "")); [closes_leaf|].
  simpl. destruct (amqp_Dial env (connstrOf (rtr st))) as [c [e|]];
    [closes_leaf|].
  simpl. destruct c as [c|]; [|closes_leaf].
  simpl. destruct (conn_Channel env c) as [[ch|] cherr]; [|closes_leaf].
  simpl.
  destruct (ch_ExchangeDeclarePassive env ch "pubsub" "topic" true false false false);
    [closes_leaf|].
  simpl. destruct (ch_QueueDeclare env ch "" false false true false) as [q [e|]];
    [closes_leaf|].
  simpl. destruct (ch_QueueBind env ch (Name q) "#" "pubsub" false); closes_leaf.
Qed.

(** X13: when the set-up fails after a successful dial, Run returns nil
    with the connection still open: the reactor holds it and no Close
    call has been made. *)
Theorem setup_failure_leaves_connection_open env st c ch cherr :
  user (rtr st) <> "" -> fqdn (rtr st) <> "" ->
  amqp_Dial env (connstrOf (rtr st)) = (Some c, None) ->
  conn_Channel env c = (Some ch, cherr) ->
  exchangeDeclareFails env ch \/ queueDeclareFails env ch \/ queueBindFails env ch ->
  fst (Run env st) = Ret None
  /\ conn (rtr (snd (Run env st))) = Some c
  /\ closes (trace (snd (Run env st))) = closes (trace st).
Proof.
  intros Hu Hf Hdial Hchan Hfail.
  destruct (connectAMQP_setup_fails env st c ch cherr Hu Hf Hdial Hchan Hfail)
    as (e & added & Hconn & _).
  rewrite (Run_connect_failed env st e _ Hconn). simpl.
  split; [reflexivity|]. split.
  - clear Hconn Hfail. unfold_connect. rewrite decide_False by tauto. simpl.
    rewrite Hdial. simpl. rewrite Hchan. simpl.
    destruct (ch_ExchangeDeclarePassive env ch "pubsub" "topic" true false false false);
      [reflexivity|].
    simpl. destruct (ch_QueueDeclare env ch "" false false true false) as [q [e2|]];
      [reflexivity|].
    simpl. destruct (ch_QueueBind env ch (Name q) "#" "pubsub" false); reflexivity.
  - pose proof (connectAMQP_never_closes env st) as Hcl.
    rewrite Hconn in Hcl. exact Hcl.
Qed.

Lemma setup_failure_leaves_connection_open_witness :
  fst (Run envNoExchange stUp) = Ret None
  /\ conn (rtr (snd (Run envNoExchange stUp))) = Some 1%nat
  /\ closes (trace (snd (Run envNoExchange stUp))) = closes (trace stUp).
Proof.
  apply (setup_failure_leaves_connection_open envNoExchange stUp 1%nat 1%nat None).
  - discriminate.
  - discriminate.
  - reflexivity.
  - reflexivity.
  - left. eexists. reflexivity.
Defined.

(** X14: when the dial fails connectAMQP returns the error of the dial
    after one Error record; no channel is opened, nothing is declared,
    and Run returns nil without a Close call. *)
Theorem connectAMQP_dial_failure env st c e :
  user (rtr st) <> "" -> fqdn (rtr st) <> "" ->
  amqp_Dial env (connstrOf (rtr st)) = (c, Some e) ->
  exists st1,
    connectAMQP env st = (Ret (Some e), st1)
    /\ Run env st = (Ret None, st1)
    /\ conn (rtr st1) = c /\ channel (rtr st1) = channel (rtr st)
    /\ trace st1
       = (trace st ++
           [NetDial (connstrOf (rtr st));
            Log Error "Error connecting to the AMQP server: %s" [AStr e]])%list.
Proof.
  intros Hu Hf Hdial.
  assert (Hc : exists st1,
             connectAMQP env st = (Ret (Some e), st1)
             /\ conn (rtr st1) = c /\ channel (rtr st1) = channel (rtr st)
             /\ trace st1
                = (trace st ++
                    [NetDial (connstrOf (rtr st));
                     Log Error "Error connecting to the AMQP server: %s" [AStr e]])%list).
  { unfold_connect. rewrite decide_False by tauto. simpl.
    rewrite Hdial. simpl. eexists. split; [reflexivity|]. simpl.
    rewrite <- !app_assoc. auto. }
  destruct Hc as (st1 & Hconn & H1 & H2 & H3).
  exists st1. split; [exact Hconn|].
  split; [apply (Run_connect_failed env st e); exact Hconn|auto].
Qed.

Lemma connectAMQP_dial_failure_witness :
  exists st1,
    connectAMQP envDown stUp
      = (Ret (Some "dial tcp: connection refused"), st1)
    /\ Run envDown stUp = (Ret None, st1)
    /\ conn (rtr st1) = None /\ channel (rtr st1) = channel (rtr stUp)
    /\ trace st1
       = (trace stUp ++
           [NetDial (connstrOf (rtr stUp));
            Log Error "Error connecting to the AMQP server: %s"
                [AStr "dial tcp: connection refused"]])%list.
Proof.
  apply (connectAMQP_dial_failure envDown stUp None "dial tcp: connection refused").
  - discriminate.
  - discriminate.
  - reflexivity.
Defined.

(** ** The goroutines *)

(** X15: the ranging goroutine takes the pending deliveries in the
    order of their arrival, none twice and none left out: each is copied
    to a cell of its own, in that order, and handed to one new onDelivery
    goroutine that is to visit all the actions of the reactor. *)
Theorem loop_dispatches_in_order q : forall s,
  loopPc s = LoopRange ->
  pending (msgChannel s) = q ->
  exists s',
    run (replicate (length q) RunLoop) s = Some s'
    /\ loopPc s' = LoopRange
    /\ msgChannel s' = {| pending := []; closed := closed (msgChannel s) |}
    /\ heap s' = (heap s ++ q)%list
    /\ pool s'
       = (pool s ++ map (fun ref => GOnDelivery ref (cactions s))
                        (seq (length (heap s)) (length q)))%list
    /\ cactions s' = cactions s.
Proof.
  induction q as [|d q IH]; intros s Hpc Hq.
  - exists s. simpl. rewrite !app_nil_r. repeat split; try assumption.
    destruct (msgChannel s) as [pend cl]. simpl in *. congruence.
  - change (replicate (length (d :: q)) RunLoop)
      with (RunLoop :: replicate (length q) RunLoop).
    cbn [run]. unfold step. rewrite Hpc. unfold recv. rewrite Hq.
    cbn [mbind option_bind].
    destruct (IH (setLoop LoopRange {| pending := q; closed := closed (msgChannel s) |}
                    (heap s ++ [d])
                    (pool s ++ [GOnDelivery (length (heap s)) (cactions s)]) [] s))
      as (s' & Hrun & H1 & H2 & H3 & H4 & H5); [reflexivity|reflexivity|].
    simpl in *. exists s'. split; [exact Hrun|]. split; [exact H1|].
    split; [exact H2|]. split; [rewrite H3, <- app_assoc; reflexivity|].
    split; [|exact H5].
    rewrite H4, <- app_assoc, length_app. simpl.
    rewrite Nat.add_1_r. reflexivity.
Qed.

Lemma loop_dispatches_in_order_witness :
  exists s',
    run (replicate 2 RunLoop) sBusy = Some s'
    /\ loopPc s' = LoopRange
    /\ msgChannel s' = {| pending := []; closed := false |}
    /\ heap s' = [delivery1; delivery2; delivery1]
    /\ pool s'
       = (pool sBusy ++ [GOnDelivery 1 (cactions sBusy);
                         GOnDelivery 2 (cactions sBusy)])%list
    /\ cactions s' = cactions sBusy.
Proof.
  apply (loop_dispatches_in_order [delivery2; delivery1] sBusy).
  - reflexivity.
  - reflexivity.
Defined.

Lemma step_keeps_actions l s s' :
  step l s = Some s' ->
  cactions s' = cactions s /\ (length (heap s) <= length (heap s'))%nat.
Proof.
  intros Hstep.
  destruct l as [d| | | |i|i]; simpl in Hstep; unfold setPool in *.
  - destruct (closed (msgChannel s)); simplify_eq; auto.
  - destruct (closed (msgChannel s)); simplify_eq; auto.
  - destruct (mainPc s); [|discriminate].
    destruct (recv (looper s)) as [[v l']|]; simpl in Hstep; simplify_eq; auto.
  - destruct (loopPc s); simplify_eq; auto.
    destruct (recv (msgChannel s)) as [[[delivery|] c']|];
      simpl in Hstep; simplify_eq; simpl; auto.
    rewrite length_app. simpl. split; [reflexivity|lia].
  - destruct (pool s !! i) as [[delivery [|action todo]|action delivery|]|];
      simpl in Hstep; simplify_eq; auto.
  - destruct (pool s !! i) as [[delivery todo|action delivery|]|];
      simpl in Hstep; simplify_eq; auto.
Qed.

Lemma goodGoroutine_mono s s' g :
  cactions s' = cactions s -> (length (heap s) <= length (heap s'))%nat ->
  goodGoroutine s g -> goodGoroutine s' g.
Proof.
  intros Ha Hh. destruct g as [ref todo|a ref|]; simpl; [| |auto];
    rewrite Ha; intros [Hlt H]; split; try exact H; lia.
Qed.

Lemma step_keeps_pool_good l s s' :
  step l s = Some s' ->
  Forall (goodGoroutine s) (pool s) -> Forall (goodGoroutine s') (pool s').
Proof.
  intros Hstep Hgood.
  destruct (step_keeps_actions l s s' Hstep) as [Ha Hh].
  assert (Hmono : Forall (goodGoroutine s') (pool s)).
  { eapply Forall_impl; [exact Hgood|].
    intros g. apply goodGoroutine_mono; assumption. }
  clear Hgood.
  destruct l as [d| | | |i|i]; simpl in Hstep; unfold setPool in *.
  - destruct (closed (msgChannel s)); simplify_eq; exact Hmono.
  - destruct (closed (msgChannel s)); simplify_eq; exact Hmono.
  - destruct (mainPc s); [|discriminate].
    destruct (recv (looper s)) as [[v l']|]; simpl in Hstep; simplify_eq;
      exact Hmono.
  - destruct (loopPc s); simplify_eq; try exact Hmono.
    destruct (recv (msgChannel s)) as [[[delivery|] c']|];
      simpl in Hstep; simplify_eq; simpl in *; try exact Hmono.
    apply Forall_app. split; [exact Hmono|].
    apply Forall_singleton. simpl. rewrite length_app. simpl.
    split; [lia|reflexivity].
  - destruct (pool s !! i) as [[delivery [|action todo]|action delivery|]|] eqn:Hi;
      simpl in Hstep; simplify_eq; simpl in *; try exact Hmono.
    + apply Forall_insert; [exact Hmono|exact I].
    + pose proof (Forall_lookup_1 _ _ _ _ Hmono Hi) as [Hlt Hsuf]. simpl in *.
      apply Forall_app. split.
      * apply Forall_insert; [exact Hmono|]. simpl. split; [exact Hlt|].
        apply (suffix_cons_l _ _ action). exact Hsuf.
      * apply Forall_singleton. simpl. split; [exact Hlt|].
        destruct Hsuf as [k ->]. rewrite elem_of_app. right. left.
  - destruct (pool s !! i) as [[delivery todo|action delivery|]|];
      simpl in Hstep; simplify_eq; simpl in *.
    apply Forall_insert; [exact Hmono|exact I].
Qed.

Lemma run_keeps_pool_good ls : forall s0 s,
  run ls s0 = Some s ->
  Forall (goodGoroutine s0) (pool s0) -> Forall (goodGoroutine s) (pool s).
Proof.
  induction ls as [|l ls IH]; intros s0 s Hrun Hgood; simpl in Hrun.
  - simplify_eq. exact Hgood.
  - destruct (step l s0) as [s1|] eqn:Hstep; simpl in Hrun; [|discriminate].
    apply (IH s1 s Hrun). apply (step_keeps_pool_good l s0 s1 Hstep Hgood).
Qed.

(** X16: in every state the goroutines reach, each onDelivery and each
    OnMessage goroutine holds the address of a stored delivery, each
    OnMessage goroutine runs an action of the reactor, and each onDelivery
    goroutine has a tail of the reactor's actions left to visit. *)
Theorem goroutines_stay_well_formed st ls s :
  run ls (startConc st) = Some s -> Forall (goodGoroutine s) (pool s).
Proof.
  intros Hrun. apply (run_keeps_pool_good ls (startConc st) s Hrun).
  simpl. constructor.
Qed.

Lemma goroutines_stay_well_formed_witness :
  exists s,
    run scheduleOne (startConc stLoaded) = Some s
    /\ Forall (goodGoroutine s) (pool s).
Proof.
  eexists. split; [vm_compute; reflexivity|].
  apply (goroutines_stay_well_formed stLoaded scheduleOne).
  vm_compute. reflexivity.
Defined.

(** X17: a reactor without actions is inert: whatever is delivered and
    however the goroutines are scheduled, no OnMessage goroutine is ever
    started. *)
Theorem no_actions_no_OnMessage st ls s :
  actions (rtr st) = [] ->
  run ls (startConc st) = Some s ->
  List.filter isOnMessage (pool s) = [].
Proof.
  intros Hnone Hrun.
  assert (Hgood : Forall (goodGoroutine s) (pool s))
    by (apply (run_keeps_pool_good ls (startConc st) s Hrun); constructor).
  destruct (run_keeps_main_waiting ls (startConc st) s Hrun) as (_ & _ & Ha);
    [reflexivity|].
  simpl in Ha. rewrite Hnone in Ha.
  induction (pool s) as [|g p IH]; [reflexivity|].
  apply Forall_cons in Hgood as [Hg Hp].
  destruct g as [ref todo|a ref|]; simpl; try (apply IH; exact Hp).
  destruct Hg as [_ Hin]. rewrite Ha in Hin. inversion Hin.
Qed.

Lemma no_actions_no_OnMessage_witness :
  exists s,
    run scheduleOne (startConc stIdle) = Some s
    /\ List.filter isOnMessage (pool s) = [].
Proof.
  eexists. split; [vm_compute; reflexivity|].
  apply (no_actions_no_OnMessage stIdle scheduleOne).
  - reflexivity.
  - vm_compute. reflexivity.
Defined.

Lemma step_conserves_deliveries l s s' :
  step l s = Some s' ->
  (heap s' ++ pending (msgChannel s'))%list
  = (heap s ++ pending (msgChannel s) ++ deliveredBy [l])%list.
Proof.
  intros Hstep.
  destruct l as [d| | | |i|i]; simpl in Hstep; unfold setPool in *; simpl;
    rewrite ?app_nil_r.
  - destruct (closed (msgChannel s)); simplify_eq; reflexivity.
  - destruct (closed (msgChannel s)); simplify_eq; reflexivity.
  - destruct (mainPc s); [|discriminate].
    destruct (recv (looper s)) as [[v l']|]; simpl in Hstep; simplify_eq;
      reflexivity.
  - destruct (loopPc s); simplify_eq; try reflexivity.
    unfold recv in Hstep.
    destruct (pending (msgChannel s)) as [|d q] eqn:Hq; simpl in Hstep.
    + destruct (closed (msgChannel s)); simpl in Hstep; simplify_eq.
      simpl. rewrite Hq. reflexivity.
    + simplify_eq. simpl. rewrite <- app_assoc. reflexivity.
  - destruct (pool s !! i) as [[delivery [|action todo]|action delivery|]|];
      simpl in Hstep; simplify_eq; reflexivity.
  - destruct (pool s !! i) as [[delivery todo|action delivery|]|];
      simpl in Hstep; simplify_eq; reflexivity.
Qed.

Lemma deliveredBy_cons l ls :
  deliveredBy (l :: ls) = (deliveredBy [l] ++ deliveredBy ls)%list.
Proof. destruct l; reflexivity. Qed.

(** X18: no delivery is lost or invented, and none overtakes another:
    in every state the goroutines reach, the deliveries already handed to
    onDelivery followed by those still waiting on the stream are exactly
    the deliveries the broker has sent, in the order it sent them. *)
Theorem deliveries_are_conserved st ls s :
  run ls (startConc st) = Some s ->
  (heap s ++ pending (msgChannel s))%list = deliveredBy ls.
Proof.
  assert (Hgen : forall ls s0 s,
             run ls s0 = Some s ->
             (heap s ++ pending (msgChannel s))%list
             = (heap s0 ++ pending (msgChannel s0) ++ deliveredBy ls)%list).
  { clear. induction ls as [|l ls IH]; intros s0 s Hrun; simpl in Hrun.
    - simplify_eq. simpl. rewrite app_nil_r. reflexivity.
    - destruct (step l s0) as [s1|] eqn:Hstep; simpl in Hrun; [|discriminate].
      rewrite (IH s1 s Hrun), deliveredBy_cons.
      rewrite !app_assoc. f_equal. rewrite <- app_assoc.
      apply (step_conserves_deliveries l s0 s1 Hstep). }
  intros Hrun. rewrite (Hgen ls (startConc st) s Hrun). reflexivity.
Qed.

Lemma deliveries_are_conserved_witness :
  exists s,
    run scheduleOne (startConc stLoaded) = Some s
    /\ (heap s ++ pending (msgChannel s))%list = [delivery1].
Proof.
  eexists. split; [vm_compute; reflexivity|].
  apply (deliveries_are_conserved stLoaded scheduleOne).
  vm_compute. reflexivity.
Defined.

Lemma step_logs_debug l s s' :
  step l s = Some s' -> looper s = make_chan ->
  exists logs,
    ctrace s' = (ctrace s ++ logs)%list /\ forallb isDebug logs = true.
Proof.
  intros Hstep Hlooper.
  destruct l as [d| | | |i|i]; simpl in Hstep; unfold setPool in *.
  - destruct (closed (msgChannel s)); simplify_eq; exists []; auto.
  - destruct (closed (msgChannel s)); simplify_eq; exists []; auto.
  - destruct (mainPc s); [|discriminate].
    rewrite Hlooper in Hstep. discriminate.
  - destruct (loopPc s); simplify_eq; [eexists [_]; simpl; auto|].
    destruct (recv (msgChannel s)) as [[[delivery|] c']|];
      simpl in Hstep; simplify_eq; exists []; auto.
  - destruct (pool s !! i) as [[delivery [|action todo]|action delivery|]|];
      simpl in Hstep; simplify_eq;
      first [eexists [_]; simpl; split; reflexivity
            | exists []; simpl; rewrite ?app_nil_r; split; reflexivity].
  - destruct (pool s !! i) as [[delivery todo|action delivery|]|];
      simpl in Hstep; simplify_eq; exists []; auto.
Qed.

(** X19: once Run waits, the ranging goroutine and the onDelivery
    goroutines make no call to the broker: in every state they reach,
    all that has been added to the trace are Debug records, so nothing
    is registered, declared or closed any more. *)
Theorem dispatch_only_logs_debug st ls s :
  run ls (startConc st) = Some s ->
  exists logs,
    ctrace s = (trace st ++ logs)%list /\ forallb isDebug logs = true.
Proof.
  assert (Hgen : forall ls s0 s,
             run ls s0 = Some s -> looper s0 = make_chan ->
             exists logs,
               ctrace s = (ctrace s0 ++ logs)%list /\ forallb isDebug logs = true).
  { clear. induction ls as [|l ls IH]; intros s0 s Hrun Hlooper; simpl in Hrun.
    - simplify_eq. exists []. rewrite app_nil_r. auto.
    - destruct (step l s0) as [s1|] eqn:Hstep; simpl in Hrun; [|discriminate].
      destruct (step_logs_debug l s0 s1 Hstep Hlooper) as (logs1 & E1 & D1).
      destruct (step_keeps_main_waiting l s0 s1 Hstep Hlooper) as (Hl1 & _).
      destruct (IH s1 s Hrun Hl1) as (logs2 & E2 & D2).
      exists (logs1 ++ logs2)%list. rewrite E2, E1, app_assoc.
      split; [reflexivity|]. rewrite forallb_app, D1, D2. reflexivity. }
  intros Hrun. apply (Hgen ls (startConc st) s Hrun). reflexivity.
Qed.

Lemma dispatch_only_logs_debug_witness :
  exists s,
    run scheduleOne (startConc stLoaded) = Some s
    /\ exists logs,
         ctrace s = (trace stLoaded ++ logs)%list /\ forallb isDebug logs = true.
Proof.
  eexists. split; [vm_compute; reflexivity|].
  apply (dispatch_only_logs_debug stLoaded scheduleOne).
  vm_compute. reflexivity.
Defined.

(** X20: an onDelivery goroutine always comes to its end: after one
    step per action left and a last one it is gone, having written one
    Debug record with the type of each of these actions and having started
    one OnMessage goroutine for each, both in the order of the actions. *)
Theorem onDelivery_returns todo : forall s j ref,
  pool s !! j = Some (GOnDelivery ref todo) ->
  exists s',
    run (replicate (S (length todo)) (RunGoroutine j)) s = Some s'
    /\ pool s'
       = (<[j := GDone]> (pool s) ++ map (fun a => GOnMessage a ref) todo)%list
    /\ ctrace s'
       = (ctrace s ++
           map (fun a => Log Debug "Processing action %s"
                             [AStr (Type_ (GetAction a))]) todo)%list
    /\ step (RunGoroutine j) s' = None.
Proof.
  induction todo as [|a todo IH]; intros s j ref Hj;
    pose proof (lookup_lt_Some _ _ _ Hj) as Hlt.
  - simpl. rewrite Hj. simpl. eexists. split; [reflexivity|]. simpl.
    rewrite !app_nil_r. split; [reflexivity|]. split; [reflexivity|].
    rewrite list_lookup_insert_eq by exact Hlt. reflexivity.
  - change (replicate (S (length (a :: todo))) (RunGoroutine j))
      with (RunGoroutine j :: replicate (S (length todo)) (RunGoroutine j)).
    cbn [run]. unfold step at 1. rewrite Hj. cbn [mbind option_bind].
    edestruct (IH (setPool (<[j := GOnDelivery ref todo]> (pool s)
                              ++ [GOnMessage a ref])
                     [Log Debug "Processing action %s" [AStr (Type_ (GetAction a))]] s)
                 j ref) as (s' & Hrun & Hpool & Htrace & Hgone).
    { simpl. rewrite lookup_app_l by (rewrite length_insert; exact Hlt).
      apply list_lookup_insert_eq. exact Hlt. }
    exists s'. split; [exact Hrun|]. simpl in *.
    split; [|split; [|exact Hgone]].
    + rewrite Hpool. rewrite insert_app_l by (rewrite length_insert; exact Hlt).
      rewrite list_insert_insert_eq. rewrite <- app_assoc. reflexivity.
    + rewrite Htrace, <- app_assoc. reflexivity.
Qed.

Lemma onDelivery_returns_witness :
  exists s',
    run (replicate 3 (RunGoroutine 3))
        (setPool (pool sBusy ++ [GOnDelivery 0 (cactions sBusy)]) [] sBusy)
      = Some s'
    /\ pool s'
       = (<[3%nat := GDone]> (pool sBusy ++ [GOnDelivery 0 (cactions sBusy)])
            ++ map (fun a => GOnMessage a 0%nat) (cactions sBusy))%list
    /\ ctrace s'
       = [Log Debug "Processing action %s" [AStr "shell"];
          Log Debug "Processing action %s" [AStr "ci-call"]]
    /\ step (RunGoroutine 3) s' = None.
Proof.
  apply (onDelivery_returns (cactions sBusy)
           (setPool (pool sBusy ++ [GOnDelivery 0 (cactions sBusy)]) [] sBusy)
           3%nat 0%nat).
  reflexivity.
Defined.

(** ** Run *)

(** X21: Run comes to wait for deliveries exactly when the whole
    set-up succeeds and the consumer is registered; it has then made the
    five set-up calls and one Consume call on the declared queue, with
    automatic acknowledgement, and holds the session in the reactor. *)
Theorem Run_waits_iff env st :
  (forall c ch q,
     sessionUp env (rtr st) c ch q ->
     ch_Consume env ch (Name q) "" true false false false = None ->
     Run env st
     = (Parked,
        {| rtr := connected (rtr st) c ch q;
           trace := trace st ++ setupTrace (rtr st) q
                      ++ [NetConsume (Name q) "" true false false false] |}))
  /\ (forall st2,
        Run env st = (Parked, st2) ->
        exists c ch q,
          sessionUp env (rtr st) c ch q
          /\ ch_Consume env ch (Name q) "" true false false false = None).
Proof.
  split.
  - intros c ch q Hup Hcons.
    pose proof (connectAMQP_up env st c ch q Hup) as Hconn.
    rewrite (Run_consume_started env st _ Hconn).
    + unfold consumeEvent. simpl. rewrite <- app_assoc. reflexivity.
    + exists ch. split; [reflexivity|exact Hcons].
  - intros st2 Hpark.
    destruct (Run_cases env st)
      as [(e & st1 & _ & H)|[(st1 & e & _ & _ & st3 & H)
         |[(st1 & Hconn & (ch' & Hch & Hcons) & _)|(msg & st1 & H)]]];
      try congruence.
    destruct (connectAMQP_up_inv env st st1 Hconn) as (c & ch & q & Hup).
    pose proof (connectAMQP_up env st c ch q Hup) as Hconn'.
    rewrite Hconn in Hconn'. injection Hconn' as ->.
    simpl in Hch, Hcons. injection Hch as <-.
    exists c, ch, q. split; assumption.
Qed.

Lemma Run_waits_iff_witness :
  Run envUp stUp
  = (Parked,
     {| rtr := connected (rtr stUp) 1%nat 1%nat {| Name := "amq.gen-Xa2" |};
        trace := setupTrace (rtr stUp) {| Name := "amq.gen-Xa2" |}
                   ++ [NetConsume "amq.gen-Xa2" "" true false false false] |}).
Proof.
  destruct (Run_waits_iff envUp stUp) as [Hup _].
  apply (Hup 1%nat 1%nat {| Name := "amq.gen-Xa2" |}).
  - repeat split; try discriminate.
  - reflexivity.
Defined.
